(** * DATA-MINER local runner: a shallow embedding of
      [src/local_runner/go_runner_integration.go].

    The Go runner keeps its jobs behind pointers ([map[string]*Job], and the
    closures handed to the cron engine capture the same pointers), so the
    embedding carries an explicit heap of [Job] values.  Everything the
    program obtains from outside (the host environment, the behaviour of the
    child process, the clock, the outcome of the file write) is handed to
    the operations as an explicit value.

    The PowerShell runner [scripts/local_ci_runner.ps1] is not embedded.
    The strings of its lines 145 and 178 hold the variable references
    [$JobID:] and [$taskName:], which the PowerShell parser rejects; the
    script is refused as a whole, and none of its functions ever runs. *)

From Stdlib Require Import ZArith Lia Ascii.
From stdpp Require Import gmap strings list pretty.

(* ===================================================================== *)
(** ** The parts of Go's [time] package the runner uses                   *)
(* ===================================================================== *)
Module GoTime.

(** [time.Duration]: a count of nanoseconds. *)
Definition Duration := Z.

Definition Nanosecond : Duration := 1%Z.
Definition Millisecond : Duration := 1000000%Z.
Definition Second : Duration := 1000000000%Z.
Definition Minute : Duration := (60 * Second)%Z.

(** [Duration.Milliseconds]: integer division, truncated towards zero. *)
Definition Milliseconds (d : Duration) : Z := (d ÷ Millisecond)%Z.

(** A wall-clock reading, by the civil fields [Time.Format] prints. *)
Record Time := mkTime {
  year : N; month : N; day : N;
  hour : N; minute : N; second : N;
  nanosecond : N;
  zone_offset : Z            (* seconds east of UTC *)
}.

(** [appendInt x width]: decimal, zero-padded on the left to [width]. *)
Definition appendInt (x : N) (width : nat) : string :=
  let s := pretty x in
  String.string_of_list_ascii
    (replicate (width - String.length s) "0"%char) +:+ s.

(** [t.Format("20060102_150405")] *)
Definition Format_stamp (t : Time) : string :=
  appendInt (year t) 4 +:+ appendInt (month t) 2 +:+ appendInt (day t) 2
  +:+ "_" +:+
  appendInt (hour t) 2 +:+ appendInt (minute t) 2 +:+ appendInt (second t) 2.

(** The [Z07:00] element of a layout: [Z] for UTC, otherwise the sign and
    the offset in hours and minutes. *)
Definition Format_zone (offset : Z) : string :=
  if (offset =? 0)%Z then "Z"
  else
    let zone := (offset ÷ 60)%Z in
    let sign := if (zone <? 0)%Z then "-" else "+" in
    let z := Z.to_N (Z.abs zone) in
    sign +:+ appendInt (z `div` 60)%N 2 +:+ ":" +:+ appendInt (z `mod` 60)%N 2.

(** [t.Format(time.RFC3339)], layout [2006-01-02T15:04:05Z07:00]. *)
Definition Format_RFC3339 (t : Time) : string :=
  appendInt (year t) 4 +:+ "-" +:+ appendInt (month t) 2 +:+ "-" +:+
  appendInt (day t) 2 +:+ "T" +:+
  appendInt (hour t) 2 +:+ ":" +:+ appendInt (minute t) 2 +:+ ":" +:+
  appendInt (second t) 2 +:+ Format_zone (zone_offset t).

End GoTime.

(* ===================================================================== *)
(** ** The contract of [os/exec] the runner relies on                     *)
(* ===================================================================== *)
Module GoExec.
Import GoTime.

(** An [exec.Cmd] as [executeJob] fills it in. *)
Record Cmd := mkCmd {
  Path : string;
  CmdArgs : list string;
  Dir : string;
  Env : list string            (* entries of the form key=value *)
}.

(** [os.ProcessState]: how a process ended. *)
Inductive ProcessState :=
| Exited (code : Z)                (* it exited with this code *)
| Signaled (signal : string).      (* a signal ended it: "killed", "terminated", ... *)

(** [state.Success()] *)
Definition Success (st : ProcessState) : bool :=
  match st with
  | Exited code => (code =? 0)%Z
  | Signaled _ => false
  end.

(** [state.String()], on a Unix host. *)
Definition ProcessState_String (st : ProcessState) : string :=
  match st with
  | Exited code => "exit status " +:+ pretty code
  | Signaled signal => "signal: " +:+ signal
  end.

(** The [error] values the runner meets. *)
Inductive error :=
| LookPathError (text : string)    (* [*exec.Error]: the name did not resolve *)
| StartError (text : string)       (* [*fs.PathError] of fork/exec: permission denied, ... *)
| ExitError (st : ProcessState)    (* [*exec.ExitError]: the process did not end in success *)
| DeadlineExceeded                 (* [context.DeadlineExceeded] *)
| OtherError (text : string)       (* an error of [os] or of [encoding/json] *)
| Wrapped (context : string) (e : error).   (* [fmt.Errorf("context: %w", e)] *)

(** [err.Error()] *)
Fixpoint Error (e : error) : string :=
  match e with
  | LookPathError text => text
  | StartError text => text
  | ExitError st => ProcessState_String st
  | DeadlineExceeded => "context deadline exceeded"
  | OtherError text => text
  | Wrapped context e => context +:+ ": " +:+ Error e
  end.

(** What the host does with a command, were it left alone.  Either its
    name does not resolve to an executable; or the runner reaches the point
    where [Start] looks at the context [lag] after the context was created,
    and then the executable cannot be started, or it is started, runs for
    [runtime] and ends as [ending] says.  [output t] is the combined
    stdout/stderr [CombinedOutput] has collected when it returns, if the
    process itself ends after running for [t]: the call returns only when
    every holder of the output pipe has closed it, so this may hold more
    than the process had printed by [t].  (A command whose environment has
    an entry with a NUL byte is one that cannot be started.) *)
Inductive Process :=
| NotFound (text : string)
| CannotStart (lag : Duration) (text : string)
| Runs (lag runtime : Duration) (ending : ProcessState) (output : Duration -> string).

(** Whether a context that expires [timeout] after its creation is done
    [lag] later: [context.WithTimeout] with a non-positive [timeout] returns
    a context that is done at once, and time does not run backwards. *)
Definition expired (timeout lag : Duration) : bool :=
  (timeout <=? Z.max 0 lag)%Z.

(** [exec.CommandContext(ctx, ...).CombinedOutput()] where [ctx] expires
    [timeout] after its creation.  The third component tells whether a
    process was spawned.  In the order [Start] and [Wait] proceed:
    - a name that did not resolve is reported first;
    - then a context that is already done makes [Start] return [ctx.Err()],
      and nothing is spawned;
    - then a failure to start the executable is returned as it is;
    - a process still running at the deadline is killed, and [Wait] reports
      it like any other process a signal ended;
    - otherwise the way the process ended decides.
    How long the call takes is not part of the result: [executeJob]
    measures it by itself. *)
Definition CombinedOutput (timeout : Duration) (p : Process)
  : string * option error * bool :=
  match p with
  | NotFound text => ("", Some (LookPathError text), false)
  | CannotStart lag text =>
      if expired timeout lag then ("", Some DeadlineExceeded, false)
      else ("", Some (StartError text), false)
  | Runs lag runtime ending output =>
      if expired timeout lag then ("", Some DeadlineExceeded, false)
      else if (timeout <? lag + runtime)%Z
           then (output (timeout - lag)%Z, Some (ExitError (Signaled "killed")), true)
      else if Success ending then (output runtime, None, true)
      else (output runtime, Some (ExitError ending), true)
  end.

(** [strings.Cut(kv, "=")]: the text before and after the first [=]. *)
Fixpoint cut_eq (kv : string) : option (string * string) :=
  match kv with
  | EmptyString => None
  | String c rest =>
      if Ascii.eqb c "="%char then Some (EmptyString, rest)
      else match cut_eq rest with
           | Some (k, v) => Some (String c k, v)
           | None => None
           end
  end.

(** The value the child sees for [key]: when [Env] holds a key more than
    once, [os/exec] hands the child the last entry only. *)
Fixpoint child_getenv (env : list string) (key : string) : option string :=
  match env with
  | [] => None
  | kv :: rest =>
      match child_getenv rest key with
      | Some v => Some v
      | None =>
          match cut_eq kv with
          | Some (k, v) => if String.eqb k key then Some v else None
          | None => None
          end
      end
  end.

(** The key [os/exec] files an entry of [Env] under: the text before the
    first [=], where an [=] in front counts as part of the key; an entry
    without [=] has none. *)
Definition env_key (kv : string) : option string :=
  match kv with
  | EmptyString => None
  | String c rest =>
      if Ascii.eqb c "="%char
      then Some (match cut_eq rest with
                 | Some (k, _) => String c k
                 | None => EmptyString
                 end)
      else fst <$> cut_eq kv
  end.

Definition has_key (k : string) (kv : string) : bool :=
  match env_key kv with
  | Some k' => String.eqb k' k
  | None => false
  end.

(** [dedupEnv], on a Unix host: what [os/exec] makes of [Env] before it
    hands it to the child.  The code scans [Env] from its end with the set
    of keys seen so far and drops an entry whose key has been seen, that
    is, an entry followed by another one of the same key; empty entries are
    dropped, other entries without [=] are kept; the order is kept. *)
Fixpoint dedupEnv (env : list string) : list string :=
  match env with
  | [] => []
  | kv :: rest =>
      match env_key kv with
      | None => if String.eqb kv "" then dedupEnv rest else kv :: dedupEnv rest
      | Some k => if existsb (has_key k) rest then dedupEnv rest
                  else kv :: dedupEnv rest
      end
  end.

End GoExec.

(* ===================================================================== *)
(** ** [path/filepath] on a Unix host                                      *)
(* ===================================================================== *)
Module GoFilepath.

(** The elements of a path: the texts between its separators. *)
Fixpoint split_slash (path : string) : list string :=
  match path with
  | EmptyString => [EmptyString]
  | String c rest =>
      if Ascii.eqb c "/"%char then EmptyString :: split_slash rest
      else match split_slash rest with
           | h :: t => String c h :: t
           | [] => [String c EmptyString]
           end
  end.

(** One element met by [Clean]; [st] holds the elements written so far, the
    last one first.  An empty element and [.] are skipped; [..] takes the
    last element away, unless there is none or it is [..] itself: then it
    is dropped in a rooted path and written in another; any other element
    is written. *)
Definition clean_step (rooted : bool) (st : list string) (elem : string)
  : list string :=
  if String.eqb elem "" || String.eqb elem "." then st
  else if String.eqb elem ".." then
    match st with
    | top :: below => if String.eqb top ".." then elem :: st else below
    | [] => if rooted then [] else [elem]
    end
  else elem :: st.

Fixpoint join_slash (elems : list string) : string :=
  match elems with
  | [] => ""
  | [e] => e
  | e :: rest => e +:+ "/" +:+ join_slash rest
  end.

(** Whether a path starts at the root. *)
Definition rooted (path : string) : bool :=
  match path with
  | String c _ => Ascii.eqb c "/"%char
  | EmptyString => false
  end.

(** [filepath.Clean] *)
Definition Clean (path : string) : string :=
  if String.eqb path "" then "."
  else
    let body :=
      join_slash (rev (fold_left (clean_step (rooted path)) (split_slash path) [])) in
    if rooted path then "/" +:+ body
    else if String.eqb body "" then "." else body.

(** [filepath.Join(dir, name)]: empty elements in front are skipped, the
    rest is joined by separators and cleaned. *)
Definition Join (dir name : string) : string :=
  if negb (String.eqb dir "") then Clean (dir +:+ "/" +:+ name)
  else if negb (String.eqb name "") then Clean name
  else "".

End GoFilepath.

(* ===================================================================== *)
(** ** What [encoding/json] does to a string                               *)
(* ===================================================================== *)
Module GoJson.

Definition between (lo hi : N) (c : ascii) : bool :=
  ((lo <=? N_of_ascii c) && (N_of_ascii c <=? hi))%N.

(** [utf8.DecodeRuneInString]: the number of bytes of the encoded rune [s]
    starts with; [0] stands for the answer [(RuneError, 1)] given to bytes
    that start no valid encoding. *)
Definition rune_size (s : string) : nat :=
  match s with
  | EmptyString => 0
  | String c0 rest =>
      let b0 := N_of_ascii c0 in
      if (b0 <? 128)%N then 1
      else if (b0 <? 194)%N then 0
      else if (b0 <? 224)%N then
        match rest with
        | String c1 _ => if between 128 191 c1 then 2 else 0
        | _ => 0
        end
      else if (b0 <? 240)%N then
        let lo := if (b0 =? 224)%N then 160%N else 128%N in
        let hi := if (b0 =? 237)%N then 159%N else 191%N in
        match rest with
        | String c1 (String c2 _) =>
            if between lo hi c1 && between 128 191 c2 then 3 else 0
        | _ => 0
        end
      else if (b0 <? 245)%N then
        let lo := if (b0 =? 240)%N then 144%N else 128%N in
        let hi := if (b0 =? 244)%N then 143%N else 191%N in
        match rest with
        | String c1 (String c2 (String c3 _)) =>
            if between lo hi c1 && between 128 191 c2 && between 128 191 c3
            then 4 else 0
        | _ => 0
        end
      else 0
  end.

(** U+FFFD, the replacement character, in UTF-8. *)
Definition replacement : string :=
  String (ascii_of_N 239) (String (ascii_of_N 191) (String (ascii_of_N 189) "")).

(** [keep] bytes of a rune already accepted are copied; then the next rune
    is looked at. *)
Fixpoint json_go (keep : nat) (s : string) : string :=
  match s with
  | EmptyString => EmptyString
  | String c rest =>
      match keep with
      | S k => String c (json_go k rest)
      | O =>
          match rune_size s with
          | O => replacement +:+ json_go 0 rest
          | S k => String c (json_go k rest)
          end
      end
  end.

(** The string a reader of the JSON text finds for the Go string [s]: the
    escapes the encoder writes are undone by reading; what stays is that
    every byte that is not part of a valid UTF-8 encoding has been written
    as U+FFFD. *)
Definition json_string (s : string) : string := json_go 0 s.

End GoJson.

(* ===================================================================== *)
(** ** The cron engine ([github.com/robfig/cron/v3]) as the runner uses it *)
(* ===================================================================== *)
Module GoCron.

(** A registered trigger.  The function the runner registers is the closure
    [func() { r.executeJob(job) }]; [Target] is the [*Job] it captured. *)
Record Entry := mkEntry {
  EntryID : nat;
  Spec : string;
  Target : nat
}.

(** The engine: its entries, whether its loop runs, the last id handed
    out, and the parser it was built with ([accepts spec] tells whether the
    parser returns a schedule for [spec]). *)
Record Cron := mkCron {
  entries : list Entry;
  running : bool;
  nextID : nat;
  accepts : string -> bool
}.

(** [cron.New()] *)
Definition New (parser : string -> bool) : Cron := mkCron [] false 0 parser.

(** [c.AddFunc(spec, cmd)]: a spec the parser refuses gives an error (here
    [None]) and registers nothing; otherwise the entry is appended, whether
    or not the engine already runs, and its id is returned. *)
Definition AddFunc (spec : string) (target : nat) (c : Cron) : Cron * option nat :=
  if accepts c spec then
    let id := S (nextID c) in
    (mkCron (entries c ++ [mkEntry id spec target]) (running c) id (accepts c),
     Some id)
  else (c, None).

(** [c.Start()]: does nothing when the engine already runs. *)
Definition Start (c : Cron) : Cron :=
  if running c then c
  else mkCron (entries c) true (nextID c) (accepts c).

End GoCron.

(* ===================================================================== *)
(** ** The Go runner                                                       *)
(* ===================================================================== *)
Module Runner.
Import GoTime GoExec GoFilepath GoJson.

(** [GoRunnerConfig]; [CronSchedule] is the field [Schedule] of the source
    (the name is taken by [Job]'s field below). *)
Record GoRunnerConfig := mkConfig {
  RunnerID : string;
  WorkspacePath : string;
  LogPath : string;
  CronSchedule : string;
  GitHubToken : string;
  EcosystemRepos : list string;
  ParallelJobs : Z
}.

Record Job := mkJob {
  ID : string;
  Name : string;
  Command : string;
  Args : list string;
  Schedule : string;
  Timeout : Duration;
  CreatedAt : Time;
  Status : string
}.

(** The zero [time.Time], which a composite literal leaves in [CreatedAt]. *)
Definition zeroTime : Time := mkTime 1 1 1 0 0 0 0 0.

(** [job.Status = st] *)
Definition set_Status (st : string) (j : Job) : Job :=
  mkJob (ID j) (Name j) (Command j) (Args j) (Schedule j) (Timeout j)
        (CreatedAt j) st.

(** The lines [r.logger.Printf] appends to [runner.log], by format string. *)
Inductive LogLine :=
| LogRunnerStart (runner_id : string)                   (* "Démarrage Go Runner local ..." *)
| LogRunnerActive (njobs : nat)                         (* "Runner actif avec %d jobs planifiés" *)
| LogJobStart (name id : string)                        (* "Démarrage job: %s (%s)" *)
| LogJobError (id : string) (e : error) (d : Duration)  (* "ERREUR job %s: %v (durée: %v)" *)
| LogJobOutput (output : string)                        (* "Output: %s" *)
| LogJobSuccess (id : string) (d : Duration).           (* "SUCCÈS job %s (durée: %v)" *)

(** The [result] map of [saveJobResult], one field per key; [result_error]
    is the key ["error"], [None] for JSON null. *)
Record JobResult := mkResult {
  job_id : string;
  job_name : string;
  executed_at : string;
  duration_ms : Z;
  status : string;
  output : string;
  result_error : option string
}.

(** [json.MarshalIndent(result, "", "  ")], by the fields a reader of the
    text finds: the strings as the encoder writes them, the number as it
    is.  For a map of strings, a number and nil the call returns no error. *)
Definition MarshalIndent (r : JobResult) : JobResult :=
  mkResult (json_string (job_id r)) (json_string (job_name r))
           (json_string (executed_at r)) (duration_ms r)
           (json_string (status r)) (json_string (output r))
           (json_string <$> result_error r).

(** What a result file holds: a whole JSON text, given by the fields a
    reader finds in it, or, after a write that failed half-way, the first
    [n] bytes of such a text. *)
Inductive FileContent :=
| Json (r : JobResult)
| JsonPrefix (r : JobResult) (n : nat).

(** How [os.WriteFile] ends: the whole text is written; the file could not
    be opened (nothing changes); or the file was opened, and so emptied,
    and the write stopped after [n] bytes, short of the whole text. *)
Inductive WriteOutcome :=
| WriteOk
| OpenFailed
| WriteFailed (n : nat).

(** The runner ([config], [cron], [jobs], [logger]) together with what it
    acts on: the heap the [*Job] pointers point into, the result files by
    their paths (on a file system where different cleaned paths are
    different files), standard error, and the processes spawned. *)
Record State := mkState {
  config : GoRunnerConfig;
  cron : GoCron.Cron;
  jobs : gmap string nat;
  logger : list LogLine;
  heap : list Job;
  files : gmap string FileContent;
  stderr : list string;
  spawned : list Cmd
}.

Definition with_cron (c : GoCron.Cron) (s : State) : State :=
  mkState (config s) c (jobs s) (logger s) (heap s) (files s) (stderr s) (spawned s).
Definition with_jobs (m : gmap string nat) (s : State) : State :=
  mkState (config s) (cron s) m (logger s) (heap s) (files s) (stderr s) (spawned s).
Definition with_heap (h : list Job) (s : State) : State :=
  mkState (config s) (cron s) (jobs s) (logger s) h (files s) (stderr s) (spawned s).
Definition with_files (f : gmap string FileContent) (s : State) : State :=
  mkState (config s) (cron s) (jobs s) (logger s) (heap s) f (stderr s) (spawned s).
Definition with_spawned (l : list Cmd) (s : State) : State :=
  mkState (config s) (cron s) (jobs s) (logger s) (heap s) (files s) (stderr s) l.

(** [r.logger.Printf(...)] *)
Definition Printf (l : LogLine) (s : State) : State :=
  mkState (config s) (cron s) (jobs s) (logger s ++ [l]) (heap s) (files s)
          (stderr s) (spawned s).

(** What one execution obtains from outside the program. *)
Record RunEnv := mkRunEnv {
  environ : list string;        (* os.Environ() *)
  host : Cmd -> Process;        (* what the host does with the command *)
  elapsed : Duration;           (* time.Since(start) *)
  now_executed : Time;          (* time.Now() for "executed_at" *)
  now_stamp : Time;             (* time.Now() for the file name *)
  write : WriteOutcome          (* how os.WriteFile ends *)
}.

(** What the start of the program obtains from outside. *)
Record Boot := mkBoot {
  ReadFile : string -> string + error;                  (* os.ReadFile *)
  Unmarshal : string -> GoRunnerConfig * option error;  (* json.Unmarshal into a GoRunnerConfig *)
  OpenFile : string -> option error;                    (* os.OpenFile of the log file *)
  standardParser : string -> bool                       (* the parser of cron.New() *)
}.

(** [loadConfig]: the pointer (nil is [None]) and the error it returns. *)
Definition loadConfig (b : Boot) (configPath : string)
  : option GoRunnerConfig * option error :=
  match ReadFile b configPath with
  | inr err => (None, Some err)
  | inl data => let '(config, err) := Unmarshal b data in (Some config, err)
  end.

(** The [&LocalRunner{...}] literal of [NewLocalRunner]: a fresh engine and
    an empty job map; nothing has happened around it yet. *)
Definition newRunner (parser : string -> bool) (cfg : GoRunnerConfig) : State :=
  mkState cfg (GoCron.New parser) ∅ [] [] ∅ [] [].

(** [NewLocalRunner].  The two [os.MkdirAll] calls, whose errors are
    dropped, leave no trace here. *)
Definition NewLocalRunner (b : Boot) (configPath : string)
  : option State * option error :=
  match loadConfig b configPath with
  | (_, Some err) => (None, Some (Wrapped "erreur chargement config" err))
  | (None, None) => (None, None)
  | (Some config, None) =>
      match OpenFile b (Join (LogPath config) "runner.log") with
      | Some err => (None, Some (Wrapped "erreur création log" err))
      | None => (Some (newRunner (standardParser b) config), None)
      end
  end.

(** [&Job{...}]: a new cell at the end of the heap. *)
Definition alloc (j : Job) (s : State) : nat * State :=
  (length (heap s), with_heap (heap s ++ [j]) s).

(** [addJob]: the job is stored under its id, replacing what was there; a
    non-empty schedule is handed to [AddFunc], whose result is dropped.
    [None] stands for the panic of a nil dereference. *)
Definition addJob (p : nat) (s : State) : option State :=
  job ← heap s !! p;
  let s1 := with_jobs (<[ID job := p]> (jobs s)) s in
  Some (if String.eqb (Schedule job) "" then s1
        else with_cron (fst (GoCron.AddFunc (Schedule job) p (cron s1))) s1).

Definition ecosystemJob : Job :=
  mkJob "ecosystem-mining-weekly" "Mining ECOSYSTEM-1 hebdomadaire" "python3"
        ["scripts/ecosystem_mining.py"; "--comprehensive"]
        "0 2 * * 1" (30 * Minute)%Z zeroTime "active".

Definition governanceJob : Job :=
  mkJob "governance-report-daily" "Rapport governance quotidien" "python3"
        ["src/governance/ci_gatekeeper.py"; "--report"]
        "0 8 * * *" (10 * Minute)%Z zeroTime "active".

Definition cleanupJob : Job :=
  mkJob "cleanup-old-artifacts" "Nettoyage artefacts > 30 jours" "powershell"
        ["-File"; "scripts/cleanup-artifacts.ps1"; "-Days"; "30"]
        "0 1 1 * *" (15 * Minute)%Z zeroTime "active".

Definition syncJob : Job :=
  mkJob "sync-devtools-hub" "Sync avec DevTools Hub" "make"
        ["sync-devtools"]
        "*/30 * * * *" (5 * Minute)%Z zeroTime "active".

(** [r.addJob(&Job{...})] *)
Definition addNew (j : Job) (s : State) : option State :=
  let '(p, s1) := alloc j s in addJob p s1.

Definition addDataMinerJobs (s : State) : option State :=
  s1 ← addNew ecosystemJob s;
  s2 ← addNew governanceJob s1;
  s3 ← addNew cleanupJob s2;
  addNew syncJob s3.

(** [Start]: the second component is the returned [error], always nil. *)
Definition Start (s : State) : option (State * option error) :=
  let s1 := Printf (LogRunnerStart (RunnerID (config s))) s in
  s2 ← addDataMinerJobs s1;
  let s3 := with_cron (GoCron.Start (cron s2)) s2 in
  Some (Printf (LogRunnerActive (size (jobs s3))) s3, None).

(** The environment [executeJob] gives the child: the host's, then three
    entries of the runner's own. *)
Definition child_env (cfg : GoRunnerConfig) (host_env : list string) : list string :=
  host_env ++ [ "GITHUB_TOKEN=" +:+ GitHubToken cfg;
                "DATA_MINER_RUNNER_ID=" +:+ RunnerID cfg;
                "DATA_MINER_WORKSPACE=" +:+ WorkspacePath cfg ].

(** [exec.CommandContext(ctx, job.Command, job.Args...)] with [Dir] and
    [Env] set as [executeJob] sets them. *)
Definition job_cmd (cfg : GoRunnerConfig) (host_env : list string) (job : Job) : Cmd :=
  mkCmd (Command job) (Args job) (WorkspacePath cfg) (child_env cfg host_env).

(** The [result] map [saveJobResult] builds for [job]. *)
Definition job_result (env : RunEnv) (job : Job) (out : string)
    (duration : Duration) (err : option error) : JobResult :=
  mkResult (ID job) (Name job) (Format_RFC3339 (now_executed env))
           (Milliseconds duration) (Status job) out (Error <$> err).

(** The path of the result file. *)
Definition resultFile (cfg : GoRunnerConfig) (job : Job) (env : RunEnv) : string :=
  Join (LogPath cfg)
       ("job_" +:+ ID job +:+ "_" +:+ Format_stamp (now_stamp env) +:+ ".json").

(** [os.WriteFile(name, data, 0644)], [data] being a JSON text: an
    existing file is truncated and rewritten.  The error it returns is not
    part of the result, since [saveJobResult] does not look at it. *)
Definition WriteFile (name : string) (data : JobResult) (w : WriteOutcome)
    (fs : gmap string FileContent) : gmap string FileContent :=
  match w with
  | WriteOk => <[name := Json data]> fs
  | OpenFailed => fs
  | WriteFailed n => <[name := JsonPrefix data n]> fs
  end.

(** [saveJobResult(job, output, duration, err)] *)
Definition saveJobResult (env : RunEnv) (p : nat) (out : string)
    (duration : Duration) (err : option error) (s : State) : option State :=
  job ← heap s !! p;
  let data := MarshalIndent (job_result env job out duration err) in
  Some (with_files
          (WriteFile (resultFile (config s) job env) data
                     (write env) (files s)) s).

(** [job.Status = st] through the pointer [p]. *)
Definition store_Status (p : nat) (st : string) (s : State) : State :=
  with_heap (alter (set_Status st) p (heap s)) s.

(** [executeJob(job)] *)
Definition executeJob (env : RunEnv) (p : nat) (s : State) : option State :=
  job ← heap s !! p;
  let s1 := Printf (LogJobStart (Name job) (ID job)) s in
  let cmd := job_cmd (config s) (environ env) job in
  let '(out, err, started) := CombinedOutput (Timeout job) (host env cmd) in
  let s2 := if started then with_spawned (spawned s1 ++ [cmd]) s1 else s1 in
  let duration := elapsed env in
  let s3 :=
    match err with
    | Some e =>
        store_Status p "failed"
          (Printf (LogJobOutput out) (Printf (LogJobError (ID job) e duration) s2))
    | None =>
        store_Status p "completed" (Printf (LogJobSuccess (ID job) duration) s2)
    end in
  saveJobResult env p out duration err s3.

(** A trigger fires: the closure registered by [addJob] runs. *)
Definition fire (env : RunEnv) (e : GoCron.Entry) (s : State) : option State :=
  executeJob env (GoCron.Target e) s.

(** How [main] goes on after its first lines: the runner is up and the
    program blocks in [select {}] while triggers fire, or [log.Fatalf] has
    printed a line on standard error and the program has exited. *)
Inductive Outcome :=
| Serving (s : State)
| Fatal (line : string).

(** [main]; [Args] is [os.Args]. *)
Definition main (b : Boot) (Args : list string) : option Outcome :=
  let configPath :=
    match Args with
    | _ :: path :: _ => path
    | _ => "config/go_runner.json"
    end in
  match NewLocalRunner b configPath with
  | (_, Some err) => Some (Fatal ("Erreur création runner: " +:+ Error err))
  | (None, None) => None
  | (Some runner, None) =>
      '(s, err) ← Start runner;
      match err with
      | Some err => Some (Fatal ("Erreur démarrage runner: " +:+ Error err))
      | None => Some (Serving s)
      end
  end.

End Runner.

(* ===================================================================== *)
(** ** Observations and concrete data used by the statements below        *)
(* ===================================================================== *)
Module Samples.
Import GoTime GoExec GoFilepath GoJson Runner.

(** The status [executeJob] stores for the error [CombinedOutput] returned. *)
Definition status_of (err : option error) : string :=
  match err with Some _ => "failed" | None => "completed" end.

(** What a reader of the log directory finds in a result file. *)
Definition read_result (file : string) (s : State) : option JobResult :=
  match files s !! file with
  | Some (Json r) => Some r
  | _ => None
  end.

(** The run of the job at [p] under [env] from [s] leaves the record [r]
    in that run's result file. *)
Definition records (env : RunEnv) (p : nat) (s : State) (r : JobResult) : Prop :=
  ∃ job s', heap s !! p = Some job ∧ executeJob env p s = Some s' ∧
            read_result (resultFile (config s) job env) s' = Some r.

(** The lines one run appends to the log. *)
Definition run_lines (job : Job) (out : string) (err : option error)
    (d : Duration) : list LogLine :=
  LogJobStart (Name job) (ID job) ::
  match err with
  | Some e => [LogJobError (ID job) e d; LogJobOutput out]
  | None => [LogJobSuccess (ID job) d]
  end.

(** The jobs [addDataMinerJobs] creates, in order. *)
Definition catalog : list Job := [ecosystemJob; governanceJob; cleanupJob; syncJob].

(** The trigger [addJob] asks the engine [c] to register for the job [j]
    stored at [p], and the engine after the request. *)
Definition trigger_of (c : GoCron.Cron) (j : Job) (p : nat) : list GoCron.Entry :=
  if negb (String.eqb (Schedule j) "") && GoCron.accepts c (Schedule j)
  then [GoCron.mkEntry (S (GoCron.nextID c)) (Schedule j) p] else [].

Definition registered (c : GoCron.Cron) (j : Job) (p : nat) : GoCron.Cron :=
  if String.eqb (Schedule j) "" then c
  else (GoCron.AddFunc (Schedule j) p c).1.

(** The jobs of the catalog whose schedule the engine's parser accepts. *)
Definition accepted (c : GoCron.Cron) : list Job :=
  List.filter (λ j, GoCron.accepts c (Schedule j)) catalog.

(** The names of the three variables [executeJob] appends. *)
Definition runner_keys : list string :=
  ["GITHUB_TOKEN"; "DATA_MINER_RUNNER_ID"; "DATA_MINER_WORKSPACE"].

(** Whether an entry is filed under one of these three names. *)
Definition names_runner_key (kv : string) : bool :=
  match env_key kv with
  | Some k => existsb (λ name, String.eqb name k) runner_keys
  | None => false
  end.

(** Whether an entry is filed under the key of one of the entries [later]. *)
Definition overridden (later : list string) (kv : string) : bool :=
  match env_key kv with
  | Some k => existsb (has_key k) later
  | None => false
  end.

(** A parser that accepts the four schedules of the catalog (each is a
    five-field expression the standard parser accepts) and nothing else. *)
Definition catalog_parser (spec : string) : bool :=
  bool_decide (spec ∈ Schedule <$> catalog).

Definition cfg0 : GoRunnerConfig :=
  mkConfig "data-miner-local" "/work" "/logs" "" "tok-cfg" [] 2%Z.

(** A host on which the configuration file decodes to [cfg0] and the log
    file can be opened. *)
Definition boot0 : Boot :=
  mkBoot (λ _, inl "{...}") (λ _, (cfg0, None)) (λ _, None) catalog_parser.

(** The runner [NewLocalRunner] builds for [cfg0]. *)
Definition r0 : State := newRunner catalog_parser cfg0.

Definition t0 : Time := mkTime 2025 3 9 7 5 2 100000000 3600.
Definition t0_later : Time := mkTime 2025 3 9 7 5 2 900000000 3600.

(** The time the sample host takes from the creation of the context to the
    start of the process: twenty microseconds. *)
Definition start_lag : Duration := 20000%Z.

(** A process that sleeps five seconds and then exits with 0. *)
Definition sleeps5 : Process := Runs start_lag (5 * Second)%Z (Exited 0) (λ _, "").
(** A process that exits at once with code 3. *)
Definition exits3 : Process := Runs start_lag Millisecond (Exited 3) (λ _, "boom").
(** A process that exits at once with code 0. *)
Definition exits0 : Process := Runs start_lag Millisecond (Exited 0) (λ _, "ok").
(** A process that a signal from outside kills at once. *)
Definition killed_early : Process :=
  Runs start_lag Millisecond (Signaled "killed") (λ _, "").
(** A command that cannot be started. *)
Definition no_binary : Process :=
  CannotStart start_lag "fork/exec /work/run.sh: permission denied".
(** A command whose name does not resolve: the text of the [*exec.Error]
    for [make]. *)
Definition no_make_text : string :=
  "exec: " +:+ String (ascii_of_N 34) "make" +:+ String (ascii_of_N 34) ""
  +:+ ": executable file not found in $PATH".
Definition no_make : Process := NotFound no_make_text.

Definition host_env0 : list string := ["PATH=/usr/bin"; "HOME=/root"].

Definition env_of (proc : Process) (took : Duration) (now : Time)
    (w : WriteOutcome) : RunEnv :=
  mkRunEnv host_env0 (λ _, proc) took now now w.

(** Job [A]: a timeout of two seconds, manual only. *)
Definition jobA : Job :=
  mkJob "A" "job A" "sleep" ["5"] "" (2 * Second)%Z zeroTime "active".
(** Job [B]: a generous timeout, manual only. *)
Definition jobB : Job :=
  mkJob "B" "job B" "sh" ["-c"; "exit 3"] "" Minute zeroTime "active".

(** Two definitions sharing the id [x]; the second has a zero timeout. *)
Definition jobX1 : Job :=
  mkJob "x" "first x" "true" [] "" Minute zeroTime "active".
Definition jobX2 : Job :=
  mkJob "x" "second x" "false" [] "" 0%Z zeroTime "active".

(** Job [A] with a timeout of one nanosecond. *)
Definition jobTiny : Job :=
  mkJob "A" "job A" "sleep" ["5"] "" Nanosecond zeroTime "active".

(** A job whose schedule is not a cron expression (two fields). *)
Definition jobBad : Job :=
  mkJob "bad" "bad schedule" "true" [] "every day" Minute zeroTime "active".

(** The fresh runner after one [Start], and after two. *)
Definition r1 : State :=
  Eval vm_compute in
    match Start r0 with Some (s, _) => s | None => r0 end.
Definition r2 : State :=
  Eval vm_compute in
    match Start r1 with Some (s, _) => s | None => r1 end.

(** The same surroundings with another outcome of the file write. *)
Definition with_write (w : WriteOutcome) (env : RunEnv) : RunEnv :=
  mkRunEnv (environ env) (host env) (elapsed env) (now_executed env)
           (now_stamp env) w.

(** A host environment that already holds a [GITHUB_TOKEN]. *)
Definition host_env_token : list string :=
  ["PATH=/usr/bin"; "GITHUB_TOKEN=host-secret"].

(** A state holding only job [j], at pointer 0. *)
Definition only (j : Job) : State := (alloc j r0).2.

End Samples.

(* ===================================================================== *)
(** ** The life of a runner, and notions used to describe it              *)
(* ===================================================================== *)
Module Life.
Import GoTime GoExec GoFilepath GoJson Runner Samples.

(** One thing that happens to a runner: a job is added ([addJob] on a new
    job), the runner is started, or one of the registered triggers fires. *)
Inductive step : State → State → Prop :=
| step_add j s s' :
    addNew j s = Some s' → step s s'
| step_start s s' e :
    Start s = Some (s', e) → step s s'
| step_fire env t s s' :
    t ∈ GoCron.entries (cron s) → fire env t s = Some s' → step s s'.

(** The states a runner built by [NewLocalRunner] can get into. *)
Definition reachable (parser : string → bool) (cfg : GoRunnerConfig) (s : State) : Prop :=
  rtc step (newRunner parser cfg) s.

(** The pointers of the job map and of the triggers point to jobs: a key of
    the map is the id of the job it is bound to; a trigger targets a job
    whose schedule is the trigger's, non-empty and accepted by the parser;
    and the triggers' ids are distinct, between 1 and the engine's counter. *)
Record valid (s : State) : Prop := mkValid {
  valid_jobs :
    ∀ id p, jobs s !! id = Some p → ∃ j, heap s !! p = Some j ∧ ID j = id;
  valid_triggers :
    ∀ t, t ∈ GoCron.entries (cron s) →
         (∃ j, heap s !! GoCron.Target t = Some j ∧ Schedule j = GoCron.Spec t) ∧
         GoCron.Spec t ≠ "" ∧
         GoCron.accepts (cron s) (GoCron.Spec t) = true ∧
         1 ≤ GoCron.EntryID t ≤ GoCron.nextID (cron s);
  valid_ids :
    NoDup (GoCron.EntryID <$> GoCron.entries (cron s))
}.

(** Two job values that differ at most in their [Status]. *)
Definition same_definition (j j' : Job) : Prop :=
  ID j' = ID j ∧ Name j' = Name j ∧ Command j' = Command j ∧
  Args j' = Args j ∧ Schedule j' = Schedule j ∧ Timeout j' = Timeout j ∧
  CreatedAt j' = CreatedAt j.

(** From [s] to [s'] nothing was taken away: the configuration, standard
    error and the parser are the same; the log, the triggers and the list
    of spawned processes were only extended; every id of the job map is
    still bound; an engine that ran still runs; and every job of the heap
    is still there, changed at most in its status. *)
Record grows (s s' : State) : Prop := mkGrows {
  grows_config : config s' = config s;
  grows_stderr : stderr s' = stderr s;
  grows_accepts : GoCron.accepts (cron s') = GoCron.accepts (cron s);
  grows_logger : logger s `prefix_of` logger s';
  grows_entries : GoCron.entries (cron s) `prefix_of` GoCron.entries (cron s');
  grows_spawned : spawned s `prefix_of` spawned s';
  grows_jobs : dom (jobs s) ⊆ dom (jobs s');
  grows_running : GoCron.running (cron s) = true → GoCron.running (cron s') = true;
  grows_heap :
    ∀ p j, heap s !! p = Some j → ∃ j', heap s' !! p = Some j' ∧ same_definition j j'
}.

(** The path [main] loads the configuration from: the first argument
    after the program's name, when there is one. *)
Definition configPath (Args : list string) : string :=
  match Args with
  | _ :: path :: _ => path
  | _ => "config/go_runner.json"
  end.

(** Two clock readings that print the same file-name stamp fields. *)
Definition same_second (t1 t2 : Time) : Prop :=
  year t1 = year t2 ∧ month t1 = month t2 ∧ day t1 = day t2 ∧
  hour t1 = hour t2 ∧ minute t1 = minute t2 ∧ second t1 = second t2.

(** A clock reading whose year has at most four digits and whose other
    fields have at most two, as every reading of a clock up to the year
    9999 has. *)
Definition civil (t : Time) : Prop :=
  (year t < 10000)%N ∧ (month t < 100)%N ∧ (day t < 100)%N ∧
  (hour t < 100)%N ∧ (minute t < 100)%N ∧ (second t < 100)%N.

(** The number a string of decimal digits stands for. *)
Fixpoint decimal (s : string) (acc : N) : N :=
  match s with
  | EmptyString => acc
  | String c rest => decimal rest (10 * acc + (Ascii.N_of_ascii c - 48))%N
  end.

(** Whether a string holds a path separator. *)
Fixpoint has_slash (s : string) : bool :=
  match s with
  | EmptyString => false
  | String c rest => Ascii.eqb c "/"%char || has_slash rest
  end.

(** A file name proper: not empty, not [.] or [..], and without a
    separator. *)
Definition plain (name : string) : Prop :=
  name ≠ "" ∧ name ≠ "." ∧ name ≠ ".." ∧ has_slash name = false.

(** Whether every byte of a string is an ASCII character. *)
Fixpoint is_ascii (s : string) : bool :=
  match s with
  | EmptyString => true
  | String c rest => (N_of_ascii c <? 128)%N && is_ascii rest
  end.

(** A reading of the clock one second after [t0]. *)
Definition t1 : Time := mkTime 2025 3 9 7 5 3 100000000 3600.

(** A state holding job [A] at pointer 0 and job [B] at pointer 1. *)
Definition two_jobs : State := (alloc jobB (only jobA)).2.

(** The first trigger the started runner [r1] holds. *)
Definition trigger1 : GoCron.Entry := GoCron.mkEntry 1 "0 2 * * 1" 0.

End Life.

(* ===================================================================== *)
(** * Properties                                                          *)
(* ===================================================================== *)
Import GoTime GoExec GoFilepath GoJson Runner Samples Life.

Example Format_stamp_ex :
GoTime.Format_stamp (GoTime.mkTime 2025 3 9 7 5 2 999 3600) = "20250309_070502".
Proof. vm_compute. reflexivity. Qed.

Example Format_RFC3339_ex :
GoTime.Format_RFC3339 (GoTime.mkTime 2025 3 9 7 5 2 999 3600)
= "2025-03-09T07:05:02+01:00".
Proof. vm_compute. reflexivity. Qed.

Example cut_eq_ex : GoExec.cut_eq "A=b=c" = Some ("A", "b=c").
Proof. reflexivity. Qed.

Example child_getenv_last :
  GoExec.child_getenv ["A=1"; "B=2"; "A=3"] "A" = Some "3".
Proof. reflexivity. Qed.

Example Error_exit_ex :
  GoExec.Error (GoExec.ExitError (GoExec.Exited 3)) = "exit status 3".
Proof. vm_compute. reflexivity. Qed.


(** ** Strings as the encoder and the path functions see them *)

Lemma json_go_ascii s : is_ascii s = true → json_go 0 s = s.
Proof.
  induction s as [|c s IH]; [done|]. cbn [is_ascii].
  intros [Hc Hs]%andb_true_iff.
  cbn [json_go rune_size]. rewrite Hc. by rewrite IH.
Qed.

Lemma json_string_ascii s : is_ascii s = true → json_string s = s.
Proof. apply json_go_ascii. Qed.

Lemma is_ascii_app a b : is_ascii (a +:+ b) = is_ascii a && is_ascii b.
Proof.
  induction a as [|c a IH]; [done|].
  change (String c a +:+ b) with (String c (a +:+ b)).
  cbn [is_ascii]. by rewrite IH, andb_assoc.
Qed.

Lemma pretty_N_char_ascii d : (N_of_ascii (pretty_N_char d) <? 128)%N = true.
Proof. unfold pretty_N_char. by repeat case_match. Qed.

Lemma pretty_N_go_ascii x s : is_ascii s = true → is_ascii (pretty_N_go x s) = true.
Proof.
  revert s. induction (N.lt_wf_0 x) as [x _ IH]; intros s Hs.
  destruct (decide (x = 0)%N) as [->|Hx]; [by rewrite pretty_N_go_0|].
  rewrite pretty_N_go_step by lia. apply IH.
  - apply N.div_lt; lia.
  - cbn [is_ascii]. by rewrite pretty_N_char_ascii.
Qed.

Lemma pretty_N_ascii (x : N) : is_ascii (pretty x) = true.
Proof.
  unfold pretty, pretty_N. destruct (decide _); [done|].
  by apply pretty_N_go_ascii.
Qed.

Lemma pretty_Z_ascii (x : Z) : is_ascii (pretty x) = true.
Proof.
  destruct x as [|q|q]; [done| |].
  - apply (pretty_N_ascii (Npos q)).
  - change (is_ascii ("-" +:+ pretty (Npos q)) = true).
    rewrite is_ascii_app. by rewrite (pretty_N_ascii (Npos q)).
Qed.

Lemma json_string_status_of err : json_string (status_of err) = status_of err.
Proof. by destruct err. Qed.

Lemma json_string_exit (n : Z) :
  json_string ("exit status " +:+ pretty n) = "exit status " +:+ pretty n.
Proof.
  apply json_string_ascii. rewrite is_ascii_app. by rewrite pretty_Z_ascii.
Qed.

(** A byte that starts no valid encoding is read back as U+FFFD; a valid
    encoding is read back as it is. *)
Example json_string_invalid :
  json_string (String (ascii_of_N 255) "a") = replacement +:+ "a".
Proof. reflexivity. Qed.

Example json_string_valid :
  json_string (String (ascii_of_N 195) (String (ascii_of_N 169) "!"))
  = String (ascii_of_N 195) (String (ascii_of_N 169) "!").
Proof. reflexivity. Qed.

Example Clean_ex :
  Clean "a//b/./c/../d/" = "a/b/d" ∧ Clean "/../a" = "/a" ∧
  Clean "../../a" = "../../a" ∧ Clean "a/.." = "." ∧ Clean "/" = "/" ∧
  Join "/logs/" "job_a/../b_1.json" = "/logs/b_1.json" ∧
  Join "" "runner.log" = "runner.log" ∧ Join "logs" "runner.log" = "logs/runner.log".
Proof. vm_compute. repeat split. Qed.

Example dedupEnv_ex :
  dedupEnv ["A=1"; "B=2"; ""; "A=3"; "plain"] = ["B=2"; "A=3"; "plain"].
Proof. reflexivity. Qed.

(** ** What one execution does to the state *)

(** [executeJob] on a valid pointer always completes, and each component of
    the state it leaves is determined as follows. *)
Lemma executeJob_Some env p s job :
  heap s !! p = Some job →
  let cmd := job_cmd (config s) (environ env) job in
  let out := (CombinedOutput (Timeout job) (host env cmd)).1.1 in
  let err := (CombinedOutput (Timeout job) (host env cmd)).1.2 in
  let started := (CombinedOutput (Timeout job) (host env cmd)).2 in
  ∃ s', executeJob env p s = Some s' ∧
        config s' = config s ∧ cron s' = cron s ∧ jobs s' = jobs s ∧
        stderr s' = stderr s ∧
        heap s' = alter (set_Status (status_of err)) p (heap s) ∧
        logger s' = logger s ++ run_lines job out err (elapsed env) ∧
        spawned s' = (if started then spawned s ++ [cmd] else spawned s) ∧
        files s' = WriteFile (resultFile (config s) job env)
                     (MarshalIndent
                        (job_result env (set_Status (status_of err) job) out
                                    (elapsed env) err))
                     (write env) (files s).
Proof.
  intros Hjob cmd out err started.
  unfold executeJob. rewrite Hjob. cbn [mbind option_bind].
  subst out err started cmd.
  destruct (CombinedOutput _ _) as [[o e] st]. cbn [fst snd].
  destruct e as [e|], st; unfold saveJobResult; cbn -[MarshalIndent];
    rewrite list_lookup_alter_eq, Hjob; cbn -[MarshalIndent];
    (eexists; split; [reflexivity|]); cbn -[MarshalIndent];
    rewrite <- ?app_assoc; repeat split.
Qed.

(** With a successful write, the run leaves in its result file the JSON
    text of the record built from the job with its new status. *)
Lemma executeJob_records env p s job :
  heap s !! p = Some job →
  write env = WriteOk →
  let res := CombinedOutput (Timeout job)
               (host env (job_cmd (config s) (environ env) job)) in
  records env p s
    (MarshalIndent
       (job_result env (set_Status (status_of res.1.2) job) res.1.1
                   (elapsed env) res.1.2)).
Proof.
  intros Hjob Hw res.
  destruct (executeJob_Some env p s job Hjob)
    as (s' & Hrun & _ & _ & _ & _ & _ & _ & _ & Hfiles).
  exists job, s'. split_and!; [done..|].
  unfold read_result. rewrite Hfiles, Hw. cbn [WriteFile].
  by rewrite lookup_insert_eq.
Qed.

(** The job a run leaves behind its pointer carries the status of the run. *)
Lemma executeJob_Status env p s job s' :
  heap s !! p = Some job →
  executeJob env p s = Some s' →
  heap s' !! p =
    Some (set_Status
            (status_of (CombinedOutput (Timeout job)
               (host env (job_cmd (config s) (environ env) job))).1.2) job).
Proof.
  intros Hjob Hrun.
  destruct (executeJob_Some env p s job Hjob)
    as (s'' & Hrun' & _ & _ & _ & _ & Hheap & _).
  rewrite Hrun in Hrun'. injection Hrun' as <-.
  by rewrite Hheap, list_lookup_alter_eq, Hjob.
Qed.

(** ** Timeouts *)

(** A process that would outlive the deadline is reported as an error: the
    expired context when the deadline has passed before the process is
    started, the kill otherwise. *)
Lemma CombinedOutput_deadline timeout lag runtime ending output :
  (timeout < lag + runtime)%Z →
  CombinedOutput timeout (Runs lag runtime ending output) =
    if expired timeout lag then ("", Some DeadlineExceeded, false)
    else (output (timeout - lag)%Z, Some (ExitError (Signaled "killed")), true).
Proof.
  intros Hlt. unfold CombinedOutput.
  destruct (expired timeout lag); [done|].
  by rewrite (proj2 (Z.ltb_lt _ _) Hlt).
Qed.

(** A context with a timeout that is not positive is done from the start. *)
Lemma expired_nonpositive timeout lag :
  (timeout ≤ 0)%Z → expired timeout lag = true.
Proof. intros Hle. unfold expired. apply Z.leb_le. lia. Qed.

(** A timeout of one nanosecond has passed before the sample host can start
    anything: the run ends with the error of the expired context and no
    process is spawned. *)
Example tiny_timeout_never_starts :
  CombinedOutput (Timeout jobTiny) sleeps5 = ("", Some DeadlineExceeded, false) ∧
  (spawned <$> executeJob (env_of sleeps5 Millisecond t0 WriteOk) 0 (only jobTiny))
    = Some [].
Proof. split; reflexivity. Qed.

(** C1, as the code has it: when the child has not exited by the deadline,
    the job's status becomes "failed", never "completed", however the
    process would have ended later, and so does the status of the record a
    successful write leaves.  The record's error text is that of a killed
    process when the process was started, in which case it is spawned and
    killed at the deadline; it is that of the expired context when the
    deadline had passed before the start, in which case nothing is
    spawned. *)
Theorem C1_deadline_recorded_as_failed env p s job lag runtime ending output :
  heap s !! p = Some job →
  host env (job_cmd (config s) (environ env) job) = Runs lag runtime ending output →
  (Timeout job < lag + runtime)%Z →
  ∃ s', executeJob env p s = Some s' ∧
        Status <$> heap s' !! p = Some "failed" ∧
        spawned s' =
          (if expired (Timeout job) lag then spawned s
           else spawned s ++ [job_cmd (config s) (environ env) job]) ∧
        (write env = WriteOk →
         ∃ r, records env p s r ∧
              status r = "failed" ∧ status r ≠ "completed" ∧
              result_error r =
                Some (if expired (Timeout job) lag
                      then "context deadline exceeded" else "signal: killed")).
Proof.
  intros Hjob Hproc Hlt.
  destruct (executeJob_Some env p s job Hjob)
    as (s' & Hrun & _ & _ & _ & _ & _ & _ & Hsp & _).
  pose proof (executeJob_Status env p s job s' Hjob Hrun) as Hst.
  rewrite Hproc, (CombinedOutput_deadline _ _ _ _ _ Hlt) in Hst, Hsp.
  exists s'. split; [exact Hrun|]. split_and!.
  - rewrite Hst. by destruct (expired _ _).
  - rewrite Hsp. by destruct (expired _ _).
  - intros Hw.
    pose proof (executeJob_records env p s job Hjob Hw) as Hrec.
    cbn zeta in Hrec.
    rewrite Hproc, (CombinedOutput_deadline _ _ _ _ _ Hlt) in Hrec.
    eexists. split; [exact Hrec|].
    destruct (expired _ _); (split_and!; [reflexivity|discriminate|reflexivity]).
Qed.

(** C1 applied: job [A] (timeout two seconds) running a process that sleeps
    five seconds and would then exit with 0. *)
Lemma C1_deadline_witness :
  ∃ s', executeJob (env_of sleeps5 (2 * Second)%Z t0 WriteOk) 0 (only jobA)
          = Some s' ∧
        Status <$> heap s' !! 0 = Some "failed" ∧
        spawned s' = [job_cmd cfg0 host_env0 jobA] ∧
        (WriteOk = WriteOk →
         ∃ r, records (env_of sleeps5 (2 * Second)%Z t0 WriteOk) 0 (only jobA) r ∧
              status r = "failed" ∧ status r ≠ "completed" ∧
              result_error r = Some "signal: killed").
Proof.
  apply (C1_deadline_recorded_as_failed
           (env_of sleeps5 (2 * Second)%Z t0 WriteOk) 0 (only jobA) jobA
           start_lag (5 * Second)%Z (Exited 0) (λ _, "")); reflexivity.
Defined.

(** C1 as stated fails: the code has no outcome of its own for a timeout.
    The timed-out run of job [A] is recorded with the same status as a run
    of job [B] whose process exits with code 3 well within its deadline;
    and a run of job [A] whose process an outside signal kills at once,
    long before the deadline, leaves the same status and the same error
    text as the timed-out run. *)
Lemma C1_timed_out_recorded_like_plain_failure :
  ∃ rA rB rK,
    records (env_of sleeps5 (2 * Second)%Z t0 WriteOk) 0 (only jobA) rA ∧
    records (env_of exits3 Millisecond t0 WriteOk) 0 (only jobB) rB ∧
    records (env_of killed_early Millisecond t0 WriteOk) 0 (only jobA) rK ∧
    status rA = "failed" ∧
    result_error rB = Some "exit status 3" ∧ status rA = status rB ∧
    status rA = status rK ∧ result_error rA = result_error rK.
Proof.
  eexists _, _, _. split_and!.
  - apply (executeJob_records _ 0 (only jobA) jobA); reflexivity.
  - apply (executeJob_records _ 0 (only jobB) jobB); reflexivity.
  - apply (executeJob_records _ 0 (only jobA) jobA); reflexivity.
  - reflexivity.
  - vm_compute. reflexivity.
  - reflexivity.
  - reflexivity.
  - reflexivity.
Qed.

(** ** Exit codes and launch failures *)

(** A process that is started and ends by the deadline is judged by the way
    it ended. *)
Lemma CombinedOutput_exit timeout lag runtime ending output :
  expired timeout lag = false → (lag + runtime ≤ timeout)%Z →
  CombinedOutput timeout (Runs lag runtime ending output) =
    (output runtime,
     if Success ending then None else Some (ExitError ending), true).
Proof.
  intros Hlive Hle. unfold CombinedOutput.
  rewrite Hlive, (proj2 (Z.ltb_ge _ _) Hle).
  by destruct (Success ending).
Qed.

(** C2, as the code has it.  A process that was started and exits with
    code 0 by the deadline is recorded as "completed" with a null error; one
    that exits with a nonzero code [n] as "failed" with the error text
    "exit status n".  A command whose name does not resolve is recorded as
    "failed" too, the failed lookup being the error text, and so is a
    command that cannot be started, with the reason as the error text, or,
    when the deadline has passed before the start, with that of the expired
    context; in neither case is anything spawned. *)
Theorem C2_outcome_by_exit_code env p s job :
  heap s !! p = Some job →
  write env = WriteOk →
  let proc := host env (job_cmd (config s) (environ env) job) in
  (∀ lag runtime output,
     proc = Runs lag runtime (Exited 0) output →
     expired (Timeout job) lag = false → (lag + runtime ≤ Timeout job)%Z →
     ∃ r, records env p s r ∧ status r = "completed" ∧ result_error r = None) ∧
  (∀ lag runtime n output,
     proc = Runs lag runtime (Exited n) output →
     expired (Timeout job) lag = false → (lag + runtime ≤ Timeout job)%Z →
     n ≠ 0%Z →
     ∃ r, records env p s r ∧ status r = "failed" ∧
          result_error r = Some ("exit status " +:+ pretty n)) ∧
  (∀ text,
     proc = NotFound text →
     ∃ r s', records env p s r ∧ status r = "failed" ∧
             result_error r = Some (json_string text) ∧
             executeJob env p s = Some s' ∧ spawned s' = spawned s) ∧
  (∀ lag text,
     proc = CannotStart lag text →
     ∃ r s', records env p s r ∧ status r = "failed" ∧
             result_error r =
               Some (if expired (Timeout job) lag
                     then "context deadline exceeded" else json_string text) ∧
             executeJob env p s = Some s' ∧ spawned s' = spawned s).
Proof.
  intros Hjob Hw proc.
  pose proof (executeJob_records env p s job Hjob Hw) as Hrec.
  cbn zeta in Hrec. fold proc in Hrec.
  destruct (executeJob_Some env p s job Hjob)
    as (s' & Hrun & _ & _ & _ & _ & _ & _ & Hsp & _).
  fold proc in Hsp.
  split_and!.
  - intros lag runtime output Hproc Hlive Hle.
    rewrite Hproc, (CombinedOutput_exit _ _ _ _ _ Hlive Hle) in Hrec.
    by eexists.
  - intros lag runtime n output Hproc Hlive Hle Hn.
    rewrite Hproc, (CombinedOutput_exit _ _ _ _ _ Hlive Hle) in Hrec.
    cbn [Success] in Hrec. rewrite (proj2 (Z.eqb_neq _ _) Hn) in Hrec.
    eexists. split; [exact Hrec|]. split; [done|].
    change (Some (json_string ("exit status " +:+ pretty n))
            = Some ("exit status " +:+ pretty n)).
    by rewrite json_string_exit.
  - intros text Hproc. rewrite Hproc in Hrec, Hsp.
    eexists _, s'. split; [exact Hrec|]. by split_and!.
  - intros lag text Hproc. rewrite Hproc in Hrec, Hsp.
    cbn [CombinedOutput] in Hrec, Hsp.
    eexists _, s'. split; [exact Hrec|].
    destruct (expired _ _); by split_and!.
Qed.

(** C2 applied: job [B], whose process exits with code 3. *)
Lemma C2_exit_code_witness :
  ∃ r, records (env_of exits3 Millisecond t0 WriteOk) 0 (only jobB) r ∧
       status r = "failed" ∧ result_error r = Some "exit status 3".
Proof.
  destruct (C2_outcome_by_exit_code
              (env_of exits3 Millisecond t0 WriteOk) 0 (only jobB) jobB)
    as (_ & Hfail & _); [reflexivity..|].
  apply (Hfail start_lag Millisecond 3%Z (λ _, "boom")); [reflexivity..| |]; done.
Defined.

(** C2 as stated fails: a command that cannot be started is recorded with
    the same status as a process that exited with code 3; only the error
    text tells them apart. *)
Lemma C2_launch_error_recorded_like_failure :
  ∃ rL rF,
    records (env_of no_binary Millisecond t0 WriteOk) 0 (only jobB) rL ∧
    records (env_of exits3 Millisecond t0 WriteOk) 0 (only jobB) rF ∧
    result_error rL = Some "fork/exec /work/run.sh: permission denied" ∧
    result_error rF = Some "exit status 3" ∧
    status rL = "failed" ∧ status rL = status rF.
Proof.
  eexists _, _. split_and!.
  - apply (executeJob_records _ 0 (only jobB) jobB); reflexivity.
  - apply (executeJob_records _ 0 (only jobB) jobB); reflexivity.
  - reflexivity.
  - vm_compute. reflexivity.
  - reflexivity.
  - reflexivity.
Qed.

(** ** Loading the catalog *)

Lemma addNew_eq j s :
  addNew j s =
    Some (mkState (config s) (registered (cron s) j (length (heap s)))
                  (<[ID j := length (heap s)]> (jobs s)) (logger s)
                  (heap s ++ [j]) (files s) (stderr s) (spawned s)).
Proof.
  unfold addNew, alloc, addJob, registered. cbn.
  rewrite list_lookup_middle by done. cbn.
  by destruct (String.eqb (Schedule j) "").
Qed.

Lemma registered_entries c j p :
  GoCron.entries (registered c j p) = GoCron.entries c ++ trigger_of c j p.
Proof.
  unfold registered, trigger_of, GoCron.AddFunc.
  destruct (String.eqb (Schedule j) ""); cbn; [by rewrite app_nil_r|].
  destruct (GoCron.accepts c (Schedule j)); cbn; [done|by rewrite app_nil_r].
Qed.

Lemma registered_accepts c j p :
  GoCron.accepts (registered c j p) = GoCron.accepts c.
Proof.
  unfold registered, GoCron.AddFunc.
  destruct (String.eqb (Schedule j) ""); [done|].
  by destruct (GoCron.accepts c (Schedule j)).
Qed.

Lemma registered_running c j p :
  GoCron.running (registered c j p) = GoCron.running c.
Proof.
  unfold registered, GoCron.AddFunc.
  destruct (String.eqb (Schedule j) ""); [done|].
  by destruct (GoCron.accepts c (Schedule j)).
Qed.

Lemma addDataMinerJobs_Some s : is_Some (addDataMinerJobs s).
Proof.
  unfold addDataMinerJobs. rewrite addNew_eq. cbn [mbind option_bind].
  rewrite addNew_eq. cbn [mbind option_bind].
  rewrite addNew_eq. cbn [mbind option_bind].
  rewrite addNew_eq. by eexists.
Qed.

Lemma Start_Some s : ∃ s', Start s = Some (s', None).
Proof.
  unfold Start.
  destruct (addDataMinerJobs_Some
              (Printf (LogRunnerStart (RunnerID (config s))) s)) as [s2 ->].
  cbn. by eexists.
Qed.

(** C3, as the code has it: nothing is checked when a job is added.  Every
    job definition is accepted, whatever its id, schedule and timeout: it
    is stored under its id, replacing a job already stored there; a trigger
    is registered exactly when the schedule is non-empty and the engine's
    parser accepts it, and a schedule the parser refuses leaves the job in
    the map without a trigger.  [Start] always returns a nil error. *)
Theorem C3_jobs_are_added_unchecked :
  (∀ j s, ∃ s',
     addNew j s = Some s' ∧
     heap s' = heap s ++ [j] ∧
     jobs s' = <[ID j := length (heap s)]> (jobs s) ∧
     GoCron.entries (cron s') =
       GoCron.entries (cron s) ++ trigger_of (cron s) j (length (heap s))) ∧
  (∀ s, ∃ s', Start s = Some (s', None)).
Proof.
  split.
  - intros j s. eexists. split; [apply addNew_eq|]. cbn.
    split_and!; [done..|]. apply registered_entries.
  - apply Start_Some.
Qed.

(** C3 as stated fails: two definitions sharing the id [x], the second with
    a zero timeout, and a definition whose schedule the parser refuses are
    all added without an error; the second [x] takes the place of the first
    in the job map, the job with the refused schedule is in the map without
    a trigger, and [Start] then succeeds. *)
Lemma C3_duplicate_id_accepted :
  ∃ s1 s2 s3 s4,
    NewLocalRunner boot0 "config/go_runner.json" = (Some r0, None) ∧
    addNew jobX1 r0 = Some s1 ∧ addNew jobX2 s1 = Some s2 ∧
    addNew jobBad s2 = Some s3 ∧
    jobs s1 !! "x" = Some 0 ∧ jobs s3 !! "x" = Some 1 ∧
    heap s3 !! 1 = Some jobX2 ∧ Timeout jobX2 = 0%Z ∧
    jobs s3 !! "bad" = Some 2 ∧
    GoCron.accepts (cron s2) (Schedule jobBad) = false ∧
    GoCron.entries (cron s3) = [] ∧
    Start s3 = Some (s4, None) ∧
    jobs s4 !! "x" = Some 1 ∧ jobs s4 !! "bad" = Some 2.
Proof.
  eexists _, _, _, _. split_and!.
  - reflexivity.
  - vm_compute. reflexivity.
  - vm_compute. reflexivity.
  - vm_compute. reflexivity.
  - vm_compute. reflexivity.
  - vm_compute. reflexivity.
  - reflexivity.
  - reflexivity.
  - vm_compute. reflexivity.
  - vm_compute. reflexivity.
  - reflexivity.
  - vm_compute. reflexivity.
  - vm_compute. reflexivity.
  - vm_compute. reflexivity.
Qed.

(** [main] gives up only when the configuration cannot be loaded or the log
    file cannot be opened: once [NewLocalRunner] has returned a runner, the
    program serves. *)
Lemma main_serves b Args runner :
  NewLocalRunner b (match Args with
                    | _ :: path :: _ => path
                    | _ => "config/go_runner.json"
                    end) = (Some runner, None) →
  ∃ s, main b Args = Some (Serving s).
Proof.
  intros Hnew. unfold main. rewrite Hnew.
  destruct (Start_Some runner) as [s ->]. cbn. by exists s.
Qed.

(** ** Starting twice *)

(** [Start], computed: the four catalog jobs are allocated and added in
    order, then the engine is started. *)
Lemma Start_heap s s' e :
  Start s = Some (s', e) → heap s' = heap s ++ catalog.
Proof.
  unfold Start, addDataMinerJobs. rewrite addNew_eq. cbn [mbind option_bind].
  rewrite addNew_eq. cbn [mbind option_bind].
  rewrite addNew_eq. cbn [mbind option_bind].
  rewrite addNew_eq. cbn. intros [= <- <-]. cbn.
  by rewrite <- !app_assoc.
Qed.

Lemma Start_jobs s s' e :
  Start s = Some (s', e) →
  jobs s' = <[ID syncJob := length (heap s) + 3]>
            (<[ID cleanupJob := length (heap s) + 2]>
             (<[ID governanceJob := length (heap s) + 1]>
              (<[ID ecosystemJob := length (heap s)]> (jobs s)))).
Proof.
  unfold Start, addDataMinerJobs. rewrite addNew_eq. cbn [mbind option_bind].
  rewrite addNew_eq. cbn [mbind option_bind].
  rewrite addNew_eq. cbn [mbind option_bind].
  rewrite addNew_eq. cbn. intros [= <- <-]. cbn.
  rewrite !length_app. cbn.
  by replace (length (heap s) + 1 + 1) with (length (heap s) + 2) by lia;
     replace (length (heap s) + 2 + 1) with (length (heap s) + 3) by lia.
Qed.

Lemma trigger_of_Spec c j p :
  Schedule j ≠ "" →
  GoCron.Spec <$> trigger_of c j p =
    Schedule <$> List.filter (λ j, GoCron.accepts c (Schedule j)) [j].
Proof.
  intros Hne. unfold trigger_of. cbn.
  destruct (String.eqb_spec (Schedule j) ""); [done|]. cbn.
  by destruct (GoCron.accepts c (Schedule j)).
Qed.

Lemma trigger_of_Target c j p :
  Forall (λ t, GoCron.Target t = p) (trigger_of c j p).
Proof.
  unfold trigger_of.
  destruct (negb _ && _); repeat constructor.
Qed.

Lemma Start_cron s s' e :
  Start s = Some (s', e) →
  e = None ∧
  GoCron.running (cron s') = true ∧
  GoCron.accepts (cron s') = GoCron.accepts (cron s) ∧
  ∃ new, GoCron.entries (cron s') = GoCron.entries (cron s) ++ new ∧
         GoCron.Spec <$> new = Schedule <$> accepted (cron s) ∧
         Forall (λ t, length (heap s) ≤ GoCron.Target t) new.
Proof.
  unfold Start, addDataMinerJobs. rewrite addNew_eq. cbn [mbind option_bind].
  rewrite addNew_eq. cbn [mbind option_bind].
  rewrite addNew_eq. cbn [mbind option_bind].
  rewrite addNew_eq. cbn -[registered]. intros [= <- <-].
  cbn -[registered accepted].
  set (c0 := cron s).
  set (c1 := registered c0 ecosystemJob _).
  set (c2 := registered c1 governanceJob _).
  set (c3 := registered c2 cleanupJob _).
  set (c4 := registered c3 syncJob _).
  assert (GoCron.accepts c1 = GoCron.accepts c0) as A1 by apply registered_accepts.
  assert (GoCron.accepts c2 = GoCron.accepts c0) as A2
    by (unfold c2; by rewrite registered_accepts).
  assert (GoCron.accepts c3 = GoCron.accepts c0) as A3
    by (unfold c3; by rewrite registered_accepts).
  assert (GoCron.accepts c4 = GoCron.accepts c0) as A4
    by (unfold c4; by rewrite registered_accepts).
  split_and!; [done| | |].
  - unfold GoCron.Start. by destruct (GoCron.running c4) eqn:E.
  - unfold GoCron.Start. by destruct (GoCron.running c4).
  - eexists. split_and!.
    + unfold GoCron.Start.
      assert (∀ c : GoCron.Cron,
                GoCron.entries (if GoCron.running c then c
                                else GoCron.mkCron (GoCron.entries c) true
                                       (GoCron.nextID c) (GoCron.accepts c))
                = GoCron.entries c) as -> by (intros c; by destruct (GoCron.running c)).
      unfold c4, c3, c2, c1. rewrite !registered_entries, <- !app_assoc.
      reflexivity.
    + rewrite !fmap_app, !trigger_of_Spec by done.
      rewrite !registered_accepts. unfold accepted, catalog. cbn.
      repeat case_match; reflexivity.
    + rewrite !Forall_app. split_and!;
        (eapply Forall_impl; [apply trigger_of_Target|]);
        cbn; intros t ->; rewrite ?length_app; lia.
Qed.

(** C5, as the code has it: a second [Start] is not an error and leaves the
    engine running and the set of job ids as it was, but it is not a no-op:
    it creates the four catalog jobs anew, binds each catalog id to the new
    job, and registers one more trigger for every catalog schedule the
    parser accepts, next to the triggers of the first start, which stay. *)
Theorem C5_second_start_registers_again s s1 s2 e1 e2 :
  Start s = Some (s1, e1) →
  Start s1 = Some (s2, e2) →
  e2 = None ∧
  GoCron.running (cron s2) = true ∧
  dom (jobs s2) = dom (jobs s1) ∧
  heap s2 = heap s1 ++ catalog ∧
  (∀ i j, catalog !! i = Some j → jobs s2 !! ID j = Some (length (heap s1) + i)) ∧
  ∃ new,
    GoCron.entries (cron s2) = GoCron.entries (cron s1) ++ new ∧
    GoCron.Spec <$> new = Schedule <$> accepted (cron s) ∧
    Forall (λ t, length (heap s1) ≤ GoCron.Target t) new.
Proof.
  intros H1 H2.
  destruct (Start_cron _ _ _ H1) as (_ & _ & Hacc1 & _).
  destruct (Start_cron _ _ _ H2) as (-> & Hrun & _ & new & Hent & Hspec & Hfresh).
  split_and!; [done..| | | |].
  - rewrite (Start_jobs _ _ _ H2), (Start_jobs _ _ _ H1).
    rewrite !dom_insert_L.
    generalize (dom (jobs s)) ({[ID syncJob]} : gset string)
      ({[ID cleanupJob]} : gset string) ({[ID governanceJob]} : gset string)
      ({[ID ecosystemJob]} : gset string).
    clear. intros D A B C E.
    apply set_eq. intros x. rewrite !elem_of_union. tauto.
  - by apply Start_heap in H2.
  - intros i j Hi. rewrite (Start_jobs _ _ _ H2).
    destruct i as [|[|[|[|i]]]]; cbn in Hi; simplify_eq; cbn.
    + rewrite Nat.add_0_r. by simplify_map_eq.
    + by simplify_map_eq.
    + by simplify_map_eq.
    + by simplify_map_eq.
  - exists new. split_and!; [done| |done].
    rewrite Hspec. unfold accepted. by rewrite Hacc1.
Qed.

(** C5 applied to a fresh runner started twice. *)
Lemma C5_second_start_witness :
  Start r0 = Some (r1, None) ∧ Start r1 = Some (r2, None) ∧
  dom (jobs r2) = dom (jobs r1) ∧
  heap r2 = heap r1 ++ catalog ∧
  ∃ new,
    GoCron.entries (cron r2) = GoCron.entries (cron r1) ++ new ∧
    GoCron.Spec <$> new = Schedule <$> accepted (cron r0).
Proof.
  assert (Start r0 = Some (r1, None)) as H1 by (vm_compute; reflexivity).
  assert (Start r1 = Some (r2, None)) as H2 by (vm_compute; reflexivity).
  destruct (C5_second_start_registers_again r0 r1 r2 None None H1 H2)
    as (_ & _ & Hdom & Hheap & _ & new & Hent & Hspec & _).
  split; [exact H1|]. split; [exact H2|]. split; [exact Hdom|].
  split; [exact Hheap|]. exists new. split; [exact Hent|exact Hspec].
Defined.

(** C5 as stated fails: after one [Start] of a fresh runner the engine
    holds four triggers, after a second one it holds eight, and the id of
    the last catalog job is bound to another job value than before. *)
Lemma C5_start_twice_doubles_triggers :
  Start r0 = Some (r1, None) ∧ Start r1 = Some (r2, None) ∧
  length (GoCron.entries (cron r1)) = 4 ∧
  length (GoCron.entries (cron r2)) = 8 ∧
  GoCron.Spec <$> GoCron.entries (cron r2) =
    (Schedule <$> catalog) ++ (Schedule <$> catalog) ∧
  jobs r1 !! "sync-devtools-hub" = Some 3 ∧
  jobs r2 !! "sync-devtools-hub" = Some 7.
Proof.
  split_and!; vm_compute; reflexivity.
Qed.

(** ** The catalog during a run *)

(** C6, as the code has it: a run leaves the job map, the other jobs and
    every field of the executed job as they were, except the job's
    [Status], which it sets to "completed" when the command returned no
    error and to "failed" when it returned one. *)
Theorem C6_run_changes_only_status env p s job s' :
  heap s !! p = Some job →
  executeJob env p s = Some s' →
  jobs s' = jobs s ∧
  length (heap s') = length (heap s) ∧
  (∀ q, q ≠ p → heap s' !! q = heap s !! q) ∧
  ∃ job',
    heap s' !! p = Some job' ∧
    ID job' = ID job ∧ Name job' = Name job ∧ Command job' = Command job ∧
    Args job' = Args job ∧ Schedule job' = Schedule job ∧
    Timeout job' = Timeout job ∧ CreatedAt job' = CreatedAt job ∧
    Status job' =
      match (CombinedOutput (Timeout job)
               (host env (job_cmd (config s) (environ env) job))).1.2 with
      | None => "completed"
      | Some _ => "failed"
      end.
Proof.
  intros Hjob Hrun.
  pose proof (executeJob_Status env p s job s' Hjob Hrun) as Hst.
  destruct (executeJob_Some env p s job Hjob)
    as (s'' & Hrun' & _ & _ & Hjobs & _ & Hheap & _).
  rewrite Hrun in Hrun'. injection Hrun' as <-.
  split_and!.
  - exact Hjobs.
  - by rewrite Hheap, length_alter.
  - intros q Hq. rewrite Hheap. by apply list_lookup_alter_ne.
  - eexists. split; [exact Hst|]. cbn [ID Name Command Args Schedule Timeout
      CreatedAt Status set_Status]. split_and!; [done..|].
    by destruct (CombinedOutput _ _).1.2.
Qed.

(** C6 applied: the started runner executes its last catalog job. *)
Lemma C6_run_witness :
  ∃ s', executeJob (env_of exits0 Millisecond t0 WriteOk) 3 r1 = Some s' ∧
        jobs s' = jobs r1 ∧
        ∃ job', heap s' !! 3 = Some job' ∧ ID job' = "sync-devtools-hub" ∧
                Timeout job' = (5 * Minute)%Z ∧ Status job' = "completed".
Proof.
  destruct (executeJob_Some (env_of exits0 Millisecond t0 WriteOk) 3 r1 syncJob)
    as (s' & Hrun & _); [reflexivity|].
  destruct (C6_run_changes_only_status _ 3 r1 syncJob s' eq_refl Hrun)
    as (Hjobs & _ & _ & job' & Hj & Hid & _ & _ & _ & _ & Ht & _ & Hst).
  exists s'. split; [exact Hrun|]. split; [exact Hjobs|].
  exists job'. split; [exact Hj|]. split; [exact Hid|]. split; [exact Ht|exact Hst].
Defined.

(** C6 as stated fails: the last catalog job of the started runner has the
    status "active"; after a run whose process exits with 0 the same job,
    still bound to its id in the job map, has the status "completed". *)
Lemma C6_run_rewrites_status :
  ∃ s', jobs r1 !! "sync-devtools-hub" = Some 3 ∧
        Status <$> heap r1 !! 3 = Some "active" ∧
        executeJob (env_of exits0 Millisecond t0 WriteOk) 3 r1 = Some s' ∧
        jobs s' !! "sync-devtools-hub" = Some 3 ∧
        Status <$> heap s' !! 3 = Some "completed".
Proof.
  destruct (executeJob_Some (env_of exits0 Millisecond t0 WriteOk) 3 r1 syncJob)
    as (s' & Hrun & _ & _ & Hjobs & _); [reflexivity|].
  exists s'. split; [vm_compute; reflexivity|]. split; [reflexivity|].
  split; [exact Hrun|]. split; [rewrite Hjobs; vm_compute; reflexivity|].
  by rewrite (executeJob_Status _ 3 r1 syncJob s' eq_refl Hrun).
Qed.

(** ** The result files *)

(** Two runs of one job whose file-name clock readings fall into the same
    second write to the same file. *)
Lemma resultFile_same_second cfg job env1 env2 :
  Format_stamp (now_stamp env1) = Format_stamp (now_stamp env2) →
  resultFile cfg job env1 = resultFile cfg job env2.
Proof. unfold resultFile. by intros ->. Qed.

(** Whatever the log directory held under that name, after two saves into
    the same file with successful writes it holds the second record. *)
Lemma WriteFile_twice file r1 r2 fs :
  WriteFile file r2 WriteOk (WriteFile file r1 WriteOk fs) = <[file := Json r2]> fs.
Proof. cbn. apply insert_insert_eq. Qed.

(** C7 on the code: job [B] is run twice, the two runs ending three
    quarters of a second apart within the same clock second, the first with
    exit code 0 and the second with exit code 3.  Both writes succeed, and
    yet the log directory then holds a single result file: the record of
    the first run, readable after that run, is replaced by the record of
    the second. *)
Theorem C7_same_second_overwrites_record :
  t0 ≠ t0_later ∧
  ∃ s1 s2 rec1 rec2,
    executeJob (env_of exits0 Millisecond t0 WriteOk) 0 (only jobB) = Some s1 ∧
    executeJob (env_of exits3 Millisecond t0_later WriteOk) 0 s1 = Some s2 ∧
    read_result "/logs/job_B_20250309_070502.json" s1 = Some rec1 ∧
    status rec1 = "completed" ∧
    read_result "/logs/job_B_20250309_070502.json" s2 = Some rec2 ∧
    status rec2 = "failed" ∧
    size (files s2) = 1.
Proof.
  split; [discriminate|].
  eexists _, _, _, _. split_and!.
  - vm_compute. reflexivity.
  - vm_compute. reflexivity.
  - vm_compute. reflexivity.
  - reflexivity.
  - vm_compute. reflexivity.
  - reflexivity.
  - vm_compute. reflexivity.
Qed.

(** [saveJobResult] on a valid pointer always returns, and touches nothing
    but the result files. *)
Lemma saveJobResult_Some env p out d err s job :
  heap s !! p = Some job →
  ∃ s', saveJobResult env p out d err s = Some s' ∧
        config s' = config s ∧ cron s' = cron s ∧ jobs s' = jobs s ∧
        logger s' = logger s ∧ heap s' = heap s ∧ stderr s' = stderr s ∧
        spawned s' = spawned s ∧
        files s' = WriteFile (resultFile (config s) job env)
                     (MarshalIndent (job_result env job out d err))
                     (write env) (files s).
Proof.
  intros Hjob. unfold saveJobResult. rewrite Hjob. cbn [mbind option_bind].
  eexists. split; [reflexivity|]. repeat split.
Qed.

(** C8, as the code has it: however the write of the result file ends,
    [saveJobResult] returns normally and adds nothing to the runner's log
    nor to standard error; and a whole run under a failing write leaves the
    same log, standard error, jobs, triggers and spawned processes as the
    same run under a successful write.  The failure is not propagated, and
    it is not reported either. *)
Theorem C8_write_failure_not_propagated_not_reported env p s job w :
  heap s !! p = Some job →
  w ≠ WriteOk →
  (∀ out d err,
     ∃ s', saveJobResult (with_write w env) p out d err s = Some s' ∧
           logger s' = logger s ∧ stderr s' = stderr s) ∧
  ∃ s_w s_ok,
    executeJob (with_write w env) p s = Some s_w ∧
    executeJob (with_write WriteOk env) p s = Some s_ok ∧
    logger s_w = logger s_ok ∧
    stderr s_w = stderr s ∧ stderr s_ok = stderr s ∧
    heap s_w = heap s_ok ∧ jobs s_w = jobs s_ok ∧ cron s_w = cron s_ok ∧
    spawned s_w = spawned s_ok.
Proof.
  intros Hjob _. split.
  - intros out d err.
    destruct (saveJobResult_Some (with_write w env) p out d err s job Hjob)
      as (s' & Hsave & _ & _ & _ & Hlog & _ & Herr & _).
    by exists s'.
  - destruct (executeJob_Some (with_write w env) p s job Hjob)
      as (s1 & Hrun1 & _ & Hc1 & Hj1 & He1 & Hh1 & Hl1 & Hs1 & _).
    destruct (executeJob_Some (with_write WriteOk env) p s job Hjob)
      as (s2 & Hrun2 & _ & Hc2 & Hj2 & He2 & Hh2 & Hl2 & Hs2 & _).
    exists s1, s2. cbn in *.
    rewrite Hc1, Hj1, He1, Hh1, Hl1, Hs1, Hc2, Hj2, He2, Hh2, Hl2, Hs2.
    by split_and!.
Qed.

(** C8 applied: job [B] exits with 0 and the result file cannot be opened. *)
Lemma C8_write_failure_witness :
  ∃ s_w s_ok,
    executeJob (with_write OpenFailed (env_of exits0 Millisecond t0 WriteOk))
               0 (only jobB) = Some s_w ∧
    executeJob (with_write WriteOk (env_of exits0 Millisecond t0 WriteOk))
               0 (only jobB) = Some s_ok ∧
    logger s_w = logger s_ok ∧ stderr s_w = [].
Proof.
  destruct (C8_write_failure_not_propagated_not_reported
              (env_of exits0 Millisecond t0 WriteOk) 0 (only jobB) jobB OpenFailed)
    as (_ & s_w & s_ok & H1 & H2 & Hlog & Herr & _); [reflexivity|discriminate|].
  exists s_w, s_ok. split; [exact H1|]. split; [exact H2|].
  split; [exact Hlog|exact Herr].
Defined.

(** C8 as stated fails: job [B] exits with 0 and the write of its result
    file fails.  The run ends normally, no result file exists, standard
    error is empty, and the log holds the start line and the success line
    only: nothing anywhere tells that the record was lost. *)
Lemma C8_write_failure_is_silent :
  ∃ s', executeJob (env_of exits0 Millisecond t0 OpenFailed) 0 (only jobB)
          = Some s' ∧
        files s' = ∅ ∧
        stderr s' = [] ∧
        logger s' = [LogJobStart "job B" "B"; LogJobSuccess "B" Millisecond] ∧
        Status <$> heap s' !! 0 = Some "completed".
Proof.
  eexists. split_and!.
  - vm_compute. reflexivity.
  - reflexivity.
  - reflexivity.
  - reflexivity.
  - reflexivity.
Qed.

(** ** The environment of the child *)

Lemma child_getenv_app l1 l2 key :
  child_getenv (l1 ++ l2) key =
    match child_getenv l2 key with
    | Some v => Some v
    | None => child_getenv l1 key
    end.
Proof.
  induction l1 as [|kv l1 IH]; cbn.
  - by destruct (child_getenv l2 key).
  - rewrite IH. by destruct (child_getenv l2 key).
Qed.

Lemma cut_eq_GITHUB_TOKEN v :
  cut_eq ("GITHUB_TOKEN=" +:+ v) = Some ("GITHUB_TOKEN", v).
Proof. reflexivity. Qed.

Lemma cut_eq_RUNNER_ID v :
  cut_eq ("DATA_MINER_RUNNER_ID=" +:+ v) = Some ("DATA_MINER_RUNNER_ID", v).
Proof. reflexivity. Qed.

Lemma cut_eq_WORKSPACE v :
  cut_eq ("DATA_MINER_WORKSPACE=" +:+ v) = Some ("DATA_MINER_WORKSPACE", v).
Proof. reflexivity. Qed.

(** The three appended entries, looked up on their own. *)
Lemma child_getenv_own cfg key :
  child_getenv (child_env cfg []) key =
    if String.eqb "DATA_MINER_WORKSPACE" key then Some (WorkspacePath cfg)
    else if String.eqb "DATA_MINER_RUNNER_ID" key then Some (RunnerID cfg)
    else if String.eqb "GITHUB_TOKEN" key then Some (GitHubToken cfg)
    else None.
Proof.
  unfold child_env. cbn -[String.eqb cut_eq].
  rewrite cut_eq_GITHUB_TOKEN, cut_eq_RUNNER_ID, cut_eq_WORKSPACE.
  destruct (String.eqb "DATA_MINER_WORKSPACE" key); [done|].
  destruct (String.eqb "DATA_MINER_RUNNER_ID" key); [done|].
  by destruct (String.eqb "GITHUB_TOKEN" key).
Qed.

Lemma child_getenv_child_env cfg host_env key :
  child_getenv (child_env cfg host_env) key =
    match child_getenv (child_env cfg []) key with
    | Some v => Some v
    | None => child_getenv host_env key
    end.
Proof. unfold child_env. by rewrite child_getenv_app. Qed.

(** What a run adds to the spawned processes: nothing, or the command built
    for the job. *)
Lemma executeJob_spawned env p s job s' :
  heap s !! p = Some job →
  executeJob env p s = Some s' →
  ∃ new, spawned s' = spawned s ++ new ∧
         (new = [] ∨ new = [job_cmd (config s) (environ env) job]) ∧
         (new = [] ↔
          (CombinedOutput (Timeout job)
             (host env (job_cmd (config s) (environ env) job))).2 = false).
Proof.
  intros Hjob Hrun.
  destruct (executeJob_Some env p s job Hjob)
    as (s'' & Hrun' & _ & _ & _ & _ & _ & _ & Hsp & _).
  rewrite Hrun in Hrun'. injection Hrun' as <-.
  destruct (CombinedOutput _ _).2; cbn in Hsp.
  - eexists. split; [exact Hsp|]. split; [by right|]. split; discriminate.
  - exists []. rewrite app_nil_r. split; [exact Hsp|]. split; [by left|]. done.
Qed.

(** What [os/exec] makes of a list followed by another: an entry of the
    first that shares its key with an entry of the second is dropped. *)
Lemma dedupEnv_app l1 l2 :
  dedupEnv (l1 ++ l2) =
    List.filter (λ kv, negb (overridden l2 kv)) (dedupEnv l1) ++ dedupEnv l2.
Proof.
  induction l1 as [|kv l1 IH]; [done|].
  cbn [app dedupEnv]. unfold overridden in *.
  destruct (env_key kv) as [k|] eqn:Hk.
  - rewrite existsb_app.
    destruct (existsb (has_key k) l1); cbn [orb]; [exact IH|].
    cbn [List.filter]. rewrite Hk.
    destruct (existsb (has_key k) l2); cbn [negb app]; by rewrite IH.
  - destruct (String.eqb kv ""); [exact IH|].
    cbn [List.filter]. rewrite Hk. cbn [negb app]. by rewrite IH.
Qed.

Lemma env_key_GITHUB_TOKEN v : env_key ("GITHUB_TOKEN=" +:+ v) = Some "GITHUB_TOKEN".
Proof. reflexivity. Qed.

Lemma env_key_RUNNER_ID v :
  env_key ("DATA_MINER_RUNNER_ID=" +:+ v) = Some "DATA_MINER_RUNNER_ID".
Proof. reflexivity. Qed.

Lemma env_key_WORKSPACE v :
  env_key ("DATA_MINER_WORKSPACE=" +:+ v) = Some "DATA_MINER_WORKSPACE".
Proof. reflexivity. Qed.

(** The three appended entries have three keys: all of them reach the
    child, and they override what is filed under these names. *)
Lemma dedupEnv_own cfg : dedupEnv (child_env cfg []) = child_env cfg [].
Proof. reflexivity. Qed.

Lemma overridden_own cfg kv :
  overridden (child_env cfg []) kv = names_runner_key kv.
Proof.
  unfold overridden, names_runner_key, child_env, runner_keys.
  destruct (env_key kv) as [k|]; reflexivity.
Qed.

Lemma dedupEnv_child_env cfg host_env :
  dedupEnv (child_env cfg host_env) =
    List.filter (λ kv, negb (names_runner_key kv)) (dedupEnv host_env)
    ++ child_env cfg [].
Proof.
  change (child_env cfg host_env) with (host_env ++ child_env cfg []).
  rewrite dedupEnv_app, dedupEnv_own. apply (f_equal (λ l, l ++ child_env cfg [])).
  apply filter_ext. intros kv. by rewrite overridden_own.
Qed.

(** Two entries filed under one key are cut at the same place. *)
Lemma env_key_cut_eq kv e k' k v :
  env_key kv = Some k' → env_key e = Some k' → cut_eq kv = Some (k, v) →
  ∃ v', cut_eq e = Some (k, v').
Proof.
  destruct kv as [|c r]; [done|]. destruct e as [|c' r']; [done|].
  cbn [env_key cut_eq].
  destruct (Ascii.eqb_spec c "="%char) as [->|Hc];
  destruct (Ascii.eqb_spec c' "="%char) as [->|Hc'];
  destruct (cut_eq r) as [[k1 v1]|]; destruct (cut_eq r') as [[k2 v2]|];
  cbn; intros; simplify_eq; eauto.
Qed.

Lemma child_getenv_elem_of l e k v :
  e ∈ l → cut_eq e = Some (k, v) → is_Some (child_getenv l k).
Proof.
  induction l as [|x l IH]; [by intros ?%elem_of_nil|].
  intros [->|Hin]%elem_of_cons He; cbn [child_getenv].
  - destruct (child_getenv l k); [done|]. rewrite He.
    by rewrite String.eqb_refl.
  - destruct (IH Hin He) as [w ->]. done.
Qed.

(** Dropping the entries that are overridden changes no value the child
    sees. *)
Lemma child_getenv_dedupEnv l key :
  child_getenv (dedupEnv l) key = child_getenv l key.
Proof.
  induction l as [|kv l IH]; [done|]. cbn [dedupEnv child_getenv].
  destruct (env_key kv) as [k'|] eqn:Hk.
  - destruct (existsb (has_key k') l) eqn:Hex;
      [|cbn [child_getenv]; by rewrite IH].
    rewrite IH. destruct (child_getenv l key) as [w|] eqn:Hl; [done|].
    destruct (cut_eq kv) as [[k v]|] eqn:Hcut; [|done].
    destruct (String.eqb_spec k key) as [->|]; [|done].
    apply existsb_exists in Hex as (e & Hin & He). unfold has_key in He.
    destruct (env_key e) as [k2|] eqn:Hk2; [|done].
    apply String.eqb_eq in He as ->.
    destruct (env_key_cut_eq kv e k' key v Hk Hk2 Hcut) as [v' He].
    destruct (child_getenv_elem_of l e key v') as [w Hw]; [|done|congruence].
    by apply list_elem_of_In.
  - destruct (String.eqb_spec kv "") as [->|_].
    + rewrite IH. by destruct (child_getenv l key).
    + cbn [child_getenv]. by rewrite IH.
Qed.

(** C9, as the code has it: the environment every process a run spawns
    receives is what [os/exec] makes of the host environment followed by
    three entries, [GITHUB_TOKEN], [DATA_MINER_RUNNER_ID] and
    [DATA_MINER_WORKSPACE]: the host's entries that reach any child, less
    those filed under these three names, in their order, followed by the
    three entries.  Every variable with another name has its inherited
    value; under the three names the child sees the runner's values,
    whatever the host environment held for them. *)
Theorem C9_child_env_is_host_env_then_three env p s job s' :
  heap s !! p = Some job →
  executeJob env p s = Some s' →
  ∃ new,
    spawned s' = spawned s ++ new ∧
    ∀ cmd, cmd ∈ new →
      let three := [ "GITHUB_TOKEN=" +:+ GitHubToken (config s);
                     "DATA_MINER_RUNNER_ID=" +:+ RunnerID (config s);
                     "DATA_MINER_WORKSPACE=" +:+ WorkspacePath (config s) ] in
      Env cmd = environ env ++ three ∧
      dedupEnv (Env cmd) =
        List.filter (λ kv, negb (names_runner_key kv)) (dedupEnv (environ env))
        ++ three ∧
      (∀ key, key ∉ runner_keys →
              child_getenv (dedupEnv (Env cmd)) key
              = child_getenv (dedupEnv (environ env)) key) ∧
      child_getenv (dedupEnv (Env cmd)) "GITHUB_TOKEN"
        = Some (GitHubToken (config s)) ∧
      child_getenv (dedupEnv (Env cmd)) "DATA_MINER_RUNNER_ID"
        = Some (RunnerID (config s)) ∧
      child_getenv (dedupEnv (Env cmd)) "DATA_MINER_WORKSPACE"
        = Some (WorkspacePath (config s)).
Proof.
  intros Hjob Hrun.
  destruct (executeJob_spawned env p s job s' Hjob Hrun) as (new & Hsp & Hnew & _).
  exists new. split; [exact Hsp|].
  intros cmd Hcmd three.
  destruct Hnew as [->| ->]; [by apply elem_of_nil in Hcmd|].
  apply list_elem_of_singleton in Hcmd as ->. cbn [Env job_cmd].
  split_and!.
  - reflexivity.
  - apply dedupEnv_child_env.
  - intros key Hkey.
    rewrite !child_getenv_dedupEnv, child_getenv_child_env, child_getenv_own.
    unfold runner_keys in Hkey.
    destruct (String.eqb_spec "DATA_MINER_WORKSPACE" key) as [<-|_];
      [exfalso; apply Hkey; set_solver|].
    destruct (String.eqb_spec "DATA_MINER_RUNNER_ID" key) as [<-|_];
      [exfalso; apply Hkey; set_solver|].
    destruct (String.eqb_spec "GITHUB_TOKEN" key) as [<-|_];
      [exfalso; apply Hkey; set_solver|].
    reflexivity.
  - by rewrite child_getenv_dedupEnv, child_getenv_child_env, child_getenv_own.
  - by rewrite child_getenv_dedupEnv, child_getenv_child_env, child_getenv_own.
  - by rewrite child_getenv_dedupEnv, child_getenv_child_env, child_getenv_own.
Qed.

(** C9 applied: job [B] is run in the sample host environment; the process
    is spawned, receives five entries and sees the inherited [PATH]. *)
Lemma C9_child_env_witness :
  ∃ s' cmd,
    executeJob (env_of exits0 Millisecond t0 WriteOk) 0 (only jobB) = Some s' ∧
    spawned s' = [cmd] ∧
    dedupEnv (Env cmd) =
      ["PATH=/usr/bin"; "HOME=/root"; "GITHUB_TOKEN=tok-cfg";
       "DATA_MINER_RUNNER_ID=data-miner-local"; "DATA_MINER_WORKSPACE=/work"] ∧
    child_getenv (dedupEnv (Env cmd)) "PATH" = Some "/usr/bin".
Proof.
  destruct (executeJob_Some (env_of exits0 Millisecond t0 WriteOk) 0 (only jobB) jobB)
    as (s' & Hrun & _); [reflexivity|].
  destruct (C9_child_env_is_host_env_then_three _ 0 (only jobB) jobB s' eq_refl Hrun)
    as (new & Hsp & Hall).
  destruct (executeJob_spawned _ 0 (only jobB) jobB s' eq_refl Hrun)
    as (new' & Hsp' & [->| ->] & Hiff).
  { exfalso. by destruct Hiff as [Hiff _]; specialize (Hiff eq_refl). }
  rewrite Hsp' in Hsp. apply app_inv_head in Hsp. subst new.
  destruct (Hall _ (proj2 (list_elem_of_singleton _ _) eq_refl))
    as (_ & Hchild & Hkeep & _).
  eexists s', _. split; [exact Hrun|]. split; [exact Hsp'|].
  split; [exact Hchild|].
  rewrite Hkeep; [reflexivity|]. unfold runner_keys.
  rewrite !elem_of_cons, elem_of_nil. intros [|[|[|[]]]]; discriminate.
Defined.

(** C9 as stated fails: on a host whose environment already holds
    [GITHUB_TOKEN=host-secret], the process spawned for job [B] receives
    four entries.  One of them is [GITHUB_TOKEN], which is neither the
    runner id nor the workspace path; and the inherited entry
    [GITHUB_TOKEN=host-secret] is not among them: the value the child sees
    under that name is the configured one, not the inherited one. *)
Lemma C9_inherited_variable_replaced :
  ∃ s' cmd,
    executeJob (mkRunEnv host_env_token (λ _, exits0) Millisecond t0 t0 WriteOk)
               0 (only jobB) = Some s' ∧
    spawned s' = [cmd] ∧
    dedupEnv (Env cmd) =
      ["PATH=/usr/bin"; "GITHUB_TOKEN=tok-cfg";
       "DATA_MINER_RUNNER_ID=data-miner-local"; "DATA_MINER_WORKSPACE=/work"] ∧
    "GITHUB_TOKEN=host-secret" ∈ dedupEnv host_env_token ∧
    ("GITHUB_TOKEN=host-secret" ∉ dedupEnv (Env cmd)) ∧
    child_getenv (dedupEnv host_env_token) "GITHUB_TOKEN" = Some "host-secret" ∧
    child_getenv (dedupEnv (Env cmd)) "GITHUB_TOKEN" = Some "tok-cfg".
Proof.
  eexists _, _. split_and!.
  - vm_compute. reflexivity.
  - reflexivity.
  - reflexivity.
  - apply list_elem_of_further, list_elem_of_here.
  - change (dedupEnv _) with
      ["PATH=/usr/bin"; "GITHUB_TOKEN=tok-cfg";
       "DATA_MINER_RUNNER_ID=data-miner-local"; "DATA_MINER_WORKSPACE=/work"].
    rewrite !elem_of_cons, elem_of_nil. intros [|[|[|[|[]]]]]; discriminate.
  - reflexivity.
  - reflexivity.
Qed.

(** C10: every process a run spawns is handed an environment that contains
    the entry [GITHUB_TOKEN=<the configured token>], and that is the value
    the child sees under [GITHUB_TOKEN]; this holds for every job, since
    nothing in a job is consulted. *)
Theorem C10_github_token_given_to_every_child env p s job s' :
  heap s !! p = Some job →
  executeJob env p s = Some s' →
  ∃ new,
    spawned s' = spawned s ++ new ∧
    (new = [] ↔
     (CombinedOutput (Timeout job)
        (host env (job_cmd (config s) (environ env) job))).2 = false) ∧
    ∀ cmd, cmd ∈ new →
      ("GITHUB_TOKEN=" +:+ GitHubToken (config s)) ∈ Env cmd ∧
      child_getenv (Env cmd) "GITHUB_TOKEN" = Some (GitHubToken (config s)).
Proof.
  intros Hjob Hrun.
  destruct (executeJob_spawned env p s job s' Hjob Hrun) as (new & Hsp & Hnew & Hiff).
  exists new. split; [exact Hsp|]. split; [exact Hiff|].
  intros cmd Hcmd.
  destruct Hnew as [->| ->]; [by apply elem_of_nil in Hcmd|].
  apply list_elem_of_singleton in Hcmd as ->. cbn [Env job_cmd]. split.
  - unfold child_env. rewrite elem_of_app. right. apply list_elem_of_here.
  - by rewrite child_getenv_child_env, child_getenv_own.
Qed.

(** C10 applied: the process spawned for job [B] sees the configured token. *)
Lemma C10_github_token_witness :
  ∃ s' cmd,
    executeJob (env_of exits0 Millisecond t0 WriteOk) 0 (only jobB) = Some s' ∧
    spawned s' = [cmd] ∧
    child_getenv (Env cmd) "GITHUB_TOKEN" = Some "tok-cfg".
Proof.
  destruct (executeJob_Some (env_of exits0 Millisecond t0 WriteOk) 0 (only jobB) jobB)
    as (s' & Hrun & _); [reflexivity|].
  destruct (C10_github_token_given_to_every_child _ 0 (only jobB) jobB s' eq_refl Hrun)
    as (new & Hsp & _ & Hall).
  destruct (executeJob_spawned _ 0 (only jobB) jobB s' eq_refl Hrun)
    as (new' & Hsp' & [->| ->] & Hiff).
  { exfalso. by destruct Hiff as [Hiff _]; specialize (Hiff eq_refl). }
  rewrite Hsp' in Hsp. apply app_inv_head in Hsp. subst new.
  destruct (Hall _ (proj2 (list_elem_of_singleton _ _) eq_refl)) as [_ Htok].
  eexists s', _. split; [exact Hrun|]. split; [exact Hsp'|exact Htok].
Defined.

(** ** External tools *)

(** C4, as the code has it.  A job names one external tool, its command,
    and a run does not look for anything on the host before it goes on to
    start that command.  When the command does not resolve, no process is
    spawned, and the attempt ends like any other failure: the job's status
    and the record's status are "failed", the log gets the error line, and
    the failed lookup is the record's error text.  When the command
    resolves and the host starts it before the deadline, the process is
    spawned: nothing else is asked of the host. *)
Theorem C4_unresolved_command_recorded_as_failed env p s job :
  heap s !! p = Some job →
  let cmd := job_cmd (config s) (environ env) job in
  (∀ text,
     host env cmd = NotFound text →
     ∃ s', executeJob env p s = Some s' ∧
           spawned s' = spawned s ∧
           Status <$> heap s' !! p = Some "failed" ∧
           logger s' = logger s ++
                       [LogJobStart (Name job) (ID job);
                        LogJobError (ID job) (LookPathError text) (elapsed env);
                        LogJobOutput ""] ∧
           (write env = WriteOk →
            ∃ r, records env p s r ∧ status r = "failed" ∧
                 result_error r = Some (json_string text))) ∧
  (∀ lag runtime ending output,
     host env cmd = Runs lag runtime ending output →
     expired (Timeout job) lag = false →
     ∃ s', executeJob env p s = Some s' ∧ spawned s' = spawned s ++ [cmd]).
Proof.
  intros Hjob cmd.
  destruct (executeJob_Some env p s job Hjob)
    as (s' & Hrun & _ & _ & _ & _ & _ & Hlog & Hsp & _).
  pose proof (executeJob_Status env p s job s' Hjob Hrun) as Hst.
  fold cmd in Hlog, Hsp, Hst. split.
  - intros text Hproc. rewrite Hproc in Hlog, Hsp, Hst.
    exists s'. split_and!; [exact Hrun|exact Hsp|by rewrite Hst|exact Hlog|].
    intros Hw.
    pose proof (executeJob_records env p s job Hjob Hw) as Hrec.
    cbn zeta in Hrec. fold cmd in Hrec. rewrite Hproc in Hrec.
    eexists. split; [exact Hrec|]. split; reflexivity.
  - intros lag runtime ending output Hproc Hlive. rewrite Hproc in Hsp.
    exists s'. split; [exact Hrun|].
    cbn [CombinedOutput] in Hsp. rewrite Hlive in Hsp.
    destruct (Timeout job <? lag + runtime)%Z; [exact Hsp|].
    by destruct (Success ending).
Qed.

(** C4 applied: the started runner executes its job [sync-devtools-hub],
    whose command is [make], on a host where [make] does not resolve. *)
Lemma C4_unresolved_command_witness :
  ∃ s', executeJob (env_of no_make Millisecond t0 WriteOk) 3 r1 = Some s' ∧
        spawned s' = [] ∧
        Status <$> heap s' !! 3 = Some "failed".
Proof.
  destruct (C4_unresolved_command_recorded_as_failed
              (env_of no_make Millisecond t0 WriteOk) 3 r1 syncJob eq_refl)
    as [Hmiss _].
  destruct (Hmiss no_make_text eq_refl) as (s' & Hrun & Hsp & Hst & _).
  exists s'. split; [exact Hrun|]. split; [exact Hsp|exact Hst].
Defined.

(** C4 as stated fails: the job [sync-devtools-hub] needs [make].  On a
    host where [make] does not resolve its run spawns nothing, but what is
    recorded for the attempt is a failure, with the status a process that
    exited with code 3 gets; only the error text tells them apart.  And on
    a host where [make] resolves the process is spawned without a look at
    anything else the job may need: a run whose process then exits with
    code 3 is the other run of the comparison. *)
Lemma C4_missing_make_recorded_as_failure :
  ∃ rM rF sM sF,
    Command <$> heap r1 !! 3 = Some "make" ∧
    records (env_of no_make Millisecond t0 WriteOk) 3 r1 rM ∧
    records (env_of exits3 Millisecond t0 WriteOk) 3 r1 rF ∧
    status rM = "failed" ∧ status rM = status rF ∧
    result_error rM = Some no_make_text ∧
    result_error rF = Some "exit status 3" ∧
    executeJob (env_of no_make Millisecond t0 WriteOk) 3 r1 = Some sM ∧
    spawned sM = [] ∧
    executeJob (env_of exits3 Millisecond t0 WriteOk) 3 r1 = Some sF ∧
    spawned sF = [job_cmd cfg0 host_env0 syncJob].
Proof.
  destruct (executeJob_Some (env_of no_make Millisecond t0 WriteOk) 3 r1 syncJob)
    as (sM & HrunM & _ & _ & _ & _ & _ & _ & HspM & _); [reflexivity|].
  destruct (executeJob_Some (env_of exits3 Millisecond t0 WriteOk) 3 r1 syncJob)
    as (sF & HrunF & _ & _ & _ & _ & _ & _ & HspF & _); [reflexivity|].
  eexists _, _, sM, sF. split_and!.
  - reflexivity.
  - apply (executeJob_records _ 3 r1 syncJob); reflexivity.
  - apply (executeJob_records _ 3 r1 syncJob); reflexivity.
  - reflexivity.
  - reflexivity.
  - vm_compute. reflexivity.
  - vm_compute. reflexivity.
  - exact HrunM.
  - exact HspM.
  - exact HrunF.
  - exact HspF.
Qed.

(* ===================================================================== *)
(** * Further properties of the runner                                    *)
(* ===================================================================== *)

(** ** What every reachable state satisfies *)

Lemma valid_same s s' :
  jobs s' = jobs s → heap s' = heap s →
  GoCron.entries (cron s') = GoCron.entries (cron s) →
  GoCron.accepts (cron s') = GoCron.accepts (cron s) →
  GoCron.nextID (cron s') = GoCron.nextID (cron s) →
  valid s → valid s'.
Proof.
  intros Hj Hh He Ha Hn [V1 V2 V3].
  split; rewrite ?Hj, ?Hh, ?He, ?Ha, ?Hn; done.
Qed.

Lemma registered_nextID c j p :
  GoCron.nextID (registered c j p) = GoCron.nextID c + length (trigger_of c j p).
Proof.
  unfold registered, trigger_of, GoCron.AddFunc.
  destruct (String.eqb (Schedule j) ""); cbn; [lia|].
  destruct (GoCron.accepts c (Schedule j)); cbn; lia.
Qed.

Lemma trigger_of_inv c j p t :
  t ∈ trigger_of c j p →
  t = GoCron.mkEntry (S (GoCron.nextID c)) (Schedule j) p ∧
  Schedule j ≠ "" ∧ GoCron.accepts c (Schedule j) = true.
Proof.
  unfold trigger_of.
  destruct (String.eqb_spec (Schedule j) ""); cbn; [by intros ?%elem_of_nil|].
  destruct (GoCron.accepts c (Schedule j)); cbn; [|by intros ?%elem_of_nil].
  by intros ->%list_elem_of_singleton.
Qed.

Lemma valid_addNew j s s' : addNew j s = Some s' → valid s → valid s'.
Proof.
  rewrite addNew_eq. intros [= <-] [V1 V2 V3]. split; cbn.
  - intros id p. rewrite lookup_insert. case_decide as Hid.
    + intros [= <-]. exists j. split; [by apply list_lookup_middle|done].
    + intros Hp. destruct (V1 id p Hp) as (j0 & Hj0 & Hid0).
      exists j0. split; [by apply lookup_app_l_Some|done].
  - intros t. rewrite registered_entries, registered_accepts, registered_nextID.
    rewrite elem_of_app. intros [Ht|Ht].
    + destruct (V2 t Ht) as ((j0 & Hj0 & Hs) & Hne & Hacc & Hid).
      split_and!; [|done|done|lia|lia].
      exists j0. split; [by apply lookup_app_l_Some|done].
    + pose proof Ht as Hlen. apply trigger_of_inv in Ht as (-> & Hne & Hacc). cbn.
      split_and!; [|done|done|lia|].
      * exists j. split; [by apply list_lookup_middle|done].
      * unfold trigger_of. destruct (String.eqb_spec (Schedule j) ""); [done|].
        rewrite Hacc. cbn. lia.
  - rewrite registered_entries, fmap_app. apply NoDup_app. split_and!; [done| |].
    + intros id Hin Hnew.
      apply list_elem_of_fmap in Hin as (t & -> & Ht).
      apply list_elem_of_fmap in Hnew as (t' & Heq & Ht').
      apply trigger_of_inv in Ht' as (-> & _). cbn in Heq.
      destruct (V2 t Ht) as (_ & _ & _ & Hid). lia.
    + unfold trigger_of. destruct (negb _ && _); cbn; [apply NoDup_singleton|apply NoDup_nil_2].
Qed.

(** [Start], step by step. *)
Lemma Start_steps s s' e :
  Start s = Some (s', e) →
  ∃ s1 s2 s3 s4,
    addNew ecosystemJob (Printf (LogRunnerStart (RunnerID (config s))) s) = Some s1 ∧
    addNew governanceJob s1 = Some s2 ∧
    addNew cleanupJob s2 = Some s3 ∧
    addNew syncJob s3 = Some s4 ∧
    e = None ∧
    s' = Printf (LogRunnerActive (size (jobs s4)))
                (with_cron (GoCron.Start (cron s4)) s4).
Proof.
  unfold Start, addDataMinerJobs. intros H.
  destruct (addNew ecosystemJob _) as [s1|] eqn:H1;
    cbn [mbind option_bind] in H; [|done].
  destruct (addNew governanceJob s1) as [s2|] eqn:H2;
    cbn [mbind option_bind] in H; [|done].
  destruct (addNew cleanupJob s2) as [s3|] eqn:H3;
    cbn [mbind option_bind] in H; [|done].
  destruct (addNew syncJob s3) as [s4|] eqn:H4;
    cbn [mbind option_bind] in H; [|done].
  injection H as <- <-. by exists s1, s2, s3, s4.
Qed.

Lemma GoCron_Start_same c :
  GoCron.entries (GoCron.Start c) = GoCron.entries c ∧
  GoCron.accepts (GoCron.Start c) = GoCron.accepts c ∧
  GoCron.nextID (GoCron.Start c) = GoCron.nextID c ∧
  GoCron.running (GoCron.Start c) = true.
Proof. unfold GoCron.Start. by destruct (GoCron.running c) eqn:E. Qed.

Lemma valid_Start s s' e : Start s = Some (s', e) → valid s → valid s'.
Proof.
  intros (s1 & s2 & s3 & s4 & H1 & H2 & H3 & H4 & _ & ->)%Start_steps V.
  assert (valid s4) as V4.
  { eapply valid_addNew; [exact H4|]. eapply valid_addNew; [exact H3|].
    eapply valid_addNew; [exact H2|]. eapply valid_addNew; [exact H1|].
    revert V. by apply valid_same. }
  destruct (GoCron_Start_same (cron s4)) as (He & Ha & Hn & _).
  revert V4. by apply valid_same.
Qed.

Lemma valid_executeJob env p s s' : executeJob env p s = Some s' → valid s → valid s'.
Proof.
  intros Hrun [V1 V2 V3].
  destruct (heap s !! p) as [job|] eqn:Hjob;
    [|by unfold executeJob in Hrun; rewrite Hjob in Hrun].
  destruct (executeJob_Some env p s job Hjob)
    as (s'' & Hrun' & _ & Hc & Hj & _ & Hh & _).
  rewrite Hrun in Hrun'. injection Hrun' as <-.
  assert (∀ q j, heap s !! q = Some j →
                 ∃ j', heap s' !! q = Some j' ∧ ID j' = ID j ∧ Schedule j' = Schedule j)
    as Hkeep.
  { intros q j Hq. rewrite Hh. destruct (decide (p = q)) as [->|Hne].
    - rewrite list_lookup_alter_eq, Hq. cbn. by eexists.
    - rewrite list_lookup_alter_ne by done. by eexists. }
  split.
  - intros id q. rewrite Hj. intros Hq.
    destruct (V1 id q Hq) as (j & Hjq & Hid).
    destruct (Hkeep q j Hjq) as (j' & Hj' & Hid' & _).
    exists j'. split; [done|congruence].
  - intros t. rewrite Hc. intros Ht.
    destruct (V2 t Ht) as ((j & Hjt & Hs) & Hrest).
    split; [|done].
    destruct (Hkeep _ j Hjt) as (j' & Hj' & _ & Hs').
    exists j'. split; [done|congruence].
  - by rewrite Hc.
Qed.

Lemma valid_newRunner parser cfg : valid (newRunner parser cfg).
Proof.
  split; cbn.
  - intros id p. by rewrite lookup_empty.
  - intros t Ht. by apply elem_of_nil in Ht.
  - apply NoDup_nil_2.
Qed.

Lemma valid_step s s' : step s s' → valid s → valid s'.
Proof.
  intros [j s0 s0' H|s0 s0' e H|env t s0 s0' Ht H].
  - by apply valid_addNew with j.
  - by apply valid_Start with e.
  - by apply valid_executeJob with env (GoCron.Target t).
Qed.

(** In every state a runner can get into, the pointers are sound: each key
    of the job map is the id of the job it is bound to, each trigger targets
    a job whose schedule is the trigger's own, non-empty and accepted by the
    parser, and the triggers carry distinct ids. *)
Theorem reachable_valid parser cfg s : reachable parser cfg s → valid s.
Proof.
  unfold reachable. revert s. apply rtc_ind_r.
  - apply valid_newRunner.
  - intros s1 s2 _ Hstep IH. by apply valid_step with s1.
Qed.

Lemma reachable_valid_witness : valid r1.
Proof.
  apply (reachable_valid catalog_parser cfg0 r1).
  eapply rtc_l; [|apply rtc_refl].
  apply (step_start r0 r1 None). vm_compute. reflexivity.
Defined.


Lemma same_definition_refl j : same_definition j j.
Proof. by repeat split. Qed.

Lemma same_definition_trans j1 j2 j3 :
  same_definition j1 j2 → same_definition j2 j3 → same_definition j1 j3.
Proof.
  unfold same_definition. intros (?&?&?&?&?&?&?) (?&?&?&?&?&?&?).
  split_and!; congruence.
Qed.

Lemma grows_refl s : grows s s.
Proof.
  split; try done.
  intros p j Hp. exists j. split; [done|apply same_definition_refl].
Qed.

Lemma grows_trans s1 s2 s3 : grows s1 s2 → grows s2 s3 → grows s1 s3.
Proof.
  intros [A1 A2 A3 A4 A5 A6 A7 A8 A9] [B1 B2 B3 B4 B5 B6 B7 B8 B9].
  split; try congruence; try (by etrans); [auto|].
  intros p j Hp. destruct (A9 p j Hp) as (j' & Hp' & Hd).
  destruct (B9 p j' Hp') as (j'' & Hp'' & Hd').
  exists j''. split; [done|]. by eapply same_definition_trans.
Qed.

Lemma grows_Printf l s : grows s (Printf l s).
Proof.
  split; cbn; try done.
  - by apply prefix_app_r.
  - intros p j Hp. exists j. split; [done|apply same_definition_refl].
Qed.

Lemma grows_cron_Start s : grows s (with_cron (GoCron.Start (cron s)) s).
Proof.
  destruct (GoCron_Start_same (cron s)) as (He & Ha & Hn & Hr).
  split; cbn; try done.
  - by rewrite He.
  - intros p j Hp. exists j. split; [done|apply same_definition_refl].
Qed.

Lemma grows_addNew j s s' : addNew j s = Some s' → grows s s'.
Proof.
  rewrite addNew_eq. intros [= <-]. split; cbn; try done.
  - apply registered_accepts.
  - rewrite registered_entries. by apply prefix_app_r.
  - rewrite dom_insert_L. set_solver.
  - by rewrite registered_running.
  - intros p j0 Hp. exists j0. split; [by apply lookup_app_l_Some|].
    apply same_definition_refl.
Qed.

Lemma grows_Start s s' e : Start s = Some (s', e) → grows s s'.
Proof.
  intros (s1 & s2 & s3 & s4 & H1 & H2 & H3 & H4 & _ & ->)%Start_steps.
  eapply grows_trans; [apply grows_Printf|].
  eapply grows_trans; [by eapply grows_addNew|].
  eapply grows_trans; [by eapply grows_addNew|].
  eapply grows_trans; [by eapply grows_addNew|].
  eapply grows_trans; [by eapply grows_addNew|].
  eapply grows_trans; [apply grows_cron_Start|].
  apply grows_Printf.
Qed.

Lemma grows_executeJob env p s s' : executeJob env p s = Some s' → grows s s'.
Proof.
  intros Hrun.
  destruct (heap s !! p) as [job|] eqn:Hjob;
    [|by unfold executeJob in Hrun; rewrite Hjob in Hrun].
  destruct (executeJob_Some env p s job Hjob)
    as (s'' & Hrun' & Hcfg & Hc & Hj & Herr & Hh & Hl & Hsp & _).
  rewrite Hrun in Hrun'. injection Hrun' as <-.
  split; rewrite ?Hc, ?Hj; try done.
  - rewrite Hl. by apply prefix_app_r.
  - rewrite Hsp. destruct (CombinedOutput _ _).2; [by apply prefix_app_r|done].
  - intros q j Hq. rewrite Hh. destruct (decide (p = q)) as [->|Hne].
    + rewrite list_lookup_alter_eq, Hq. cbn. eexists. split; [done|].
      by repeat split.
    + rewrite list_lookup_alter_ne by done. exists j.
      split; [done|apply same_definition_refl].
Qed.

Lemma grows_step s s' : step s s' → grows s s'.
Proof.
  intros [j s0 s0' H|s0 s0' e H|env t s0 s0' Ht H].
  - by apply grows_addNew with j.
  - by apply grows_Start with e.
  - by apply grows_executeJob with env (GoCron.Target t).
Qed.

(** Whatever happens to a runner, nothing is taken away: the log, the
    triggers and the spawned processes are only extended, every id stays
    in the job map, a running engine keeps running, standard error is not
    written, and a job of the heap changes at most in its status. *)
Theorem nothing_is_removed s s' : rtc step s s' → grows s s'.
Proof.
  induction 1 as [|s1 s2 s3 Hstep _ IH].
  - apply grows_refl.
  - eapply grows_trans; [by apply grows_step|done].
Qed.

Lemma nothing_is_removed_witness : grows r0 r2.
Proof.
  apply (nothing_is_removed r0 r2).
  eapply rtc_l; [apply (step_start r0 r1 None); vm_compute; reflexivity|].
  eapply rtc_l; [apply (step_start r1 r2 None); vm_compute; reflexivity|].
  apply rtc_refl.
Defined.

(** A trigger registered before a [Start] is still registered after it,
    but the job it runs is no longer the one the job map holds: when it
    fires, every catalog id of the map is still bound to the job the last
    [Start] created, untouched, status included. *)
Theorem stale_trigger_misses_the_map s s' e env t s'' :
  valid s →
  Start s = Some (s', e) →
  t ∈ GoCron.entries (cron s) →
  fire env t s' = Some s'' →
  t ∈ GoCron.entries (cron s') ∧
  ∀ j, j ∈ catalog →
       ∃ p, jobs s'' !! ID j = Some p ∧ heap s'' !! p = Some j ∧
            GoCron.Target t < length (heap s) ≤ p.
Proof.
  intros V HS Ht Hfire.
  destruct (valid_triggers s V t Ht) as ((j0 & Hj0 & _) & _).
  pose proof (lookup_lt_Some _ _ _ Hj0) as Hlt.
  pose proof (Start_heap _ _ _ HS) as Hheap.
  pose proof (Start_jobs _ _ _ HS) as Hjobs.
  split.
  { destruct (grows_entries _ _ (grows_Start _ _ _ HS)) as [k ->].
    apply elem_of_app. by left. }
  assert (heap s' !! GoCron.Target t = Some j0) as Hj0'.
  { rewrite Hheap. by apply lookup_app_l_Some. }
  unfold fire in Hfire.
  destruct (executeJob_Some env (GoCron.Target t) s' j0 Hj0')
    as (s3 & Hrun & _ & _ & Hj & _ & Hh & _).
  rewrite Hfire in Hrun. injection Hrun as <-.
  intros j Hin. apply list_elem_of_lookup in Hin as [i Hi].
  exists (length (heap s) + i). rewrite Hj, Hjobs, Hh.
  rewrite list_lookup_alter_ne by lia.
  rewrite Hheap, lookup_app_r by lia.
  replace (length (heap s) + i - length (heap s)) with i by lia.
  split_and!; [|done|lia|lia].
  destruct i as [|[|[|[|i]]]]; cbn in Hi; simplify_eq; cbn.
  - rewrite Nat.add_0_r. by simplify_map_eq.
  - by simplify_map_eq.
  - by simplify_map_eq.
  - by simplify_map_eq.
Qed.

Lemma stale_trigger_witness :
  ∃ s'', fire (env_of exits0 Millisecond t0 WriteOk) trigger1 r2 = Some s'' ∧
         trigger1 ∈ GoCron.entries (cron r2) ∧
         ∀ j, j ∈ catalog →
              ∃ p, jobs s'' !! ID j = Some p ∧ heap s'' !! p = Some j ∧
                   GoCron.Target trigger1 < length (heap r1) ≤ p.
Proof.
  destruct (executeJob_Some (env_of exits0 Millisecond t0 WriteOk) 0 r2 ecosystemJob)
    as (s'' & Hrun & _); [reflexivity|].
  exists s''. split; [exact Hrun|].
  apply (stale_trigger_misses_the_map r1 r2 None
           (env_of exits0 Millisecond t0 WriteOk) trigger1 s'').
  - eapply valid_Start; [|apply (valid_newRunner catalog_parser cfg0)].
    instantiate (1 := None). vm_compute. reflexivity.
  - vm_compute. reflexivity.
  - apply list_elem_of_here.
  - exact Hrun.
Defined.

(** A job whose timeout is not positive never gets a process: whatever the
    host would do with its command, nothing is spawned and the run is
    recorded as failed, with the expired context (or the failed lookup of
    the command) as its error and an empty output. *)
Theorem nonpositive_timeout_never_spawns env p s job s' :
  heap s !! p = Some job →
  (Timeout job ≤ 0)%Z →
  executeJob env p s = Some s' →
  spawned s' = spawned s ∧
  Status <$> heap s' !! p = Some "failed" ∧
  ∃ e, logger s' = logger s ++
         [LogJobStart (Name job) (ID job); LogJobError (ID job) e (elapsed env);
          LogJobOutput ""] ∧
       (e = DeadlineExceeded ∨ ∃ text, e = LookPathError text).
Proof.
  intros Hjob Hle Hrun.
  pose proof (executeJob_Status env p s job s' Hjob Hrun) as Hst.
  destruct (executeJob_Some env p s job Hjob)
    as (s'' & Hrun' & _ & _ & _ & _ & _ & Hl & Hsp & _).
  rewrite Hrun in Hrun'. injection Hrun' as <-.
  revert Hst Hl Hsp.
  destruct (host env _) as [text|lag text|lag r en o]; cbn [CombinedOutput];
    rewrite ?(expired_nonpositive _ _ Hle); cbn; intros -> -> ->;
    (split; [done|split; [done|]]); eexists; (split; [reflexivity|]); eauto.
Qed.

Lemma nonpositive_timeout_witness :
  ∃ s', executeJob (env_of exits0 Millisecond t0 WriteOk) 0 (only jobX2) = Some s' ∧
        spawned s' = spawned (only jobX2) ∧
        Status <$> heap s' !! 0 = Some "failed" ∧
        ∃ e, logger s' = logger (only jobX2) ++
               [LogJobStart (Name jobX2) (ID jobX2);
                LogJobError (ID jobX2) e Millisecond; LogJobOutput ""] ∧
             (e = DeadlineExceeded ∨ ∃ text, e = LookPathError text).
Proof.
  destruct (executeJob_Some (env_of exits0 Millisecond t0 WriteOk) 0 (only jobX2) jobX2)
    as (s' & Hrun & _); [reflexivity|].
  exists s'. split; [exact Hrun|].
  apply (nonpositive_timeout_never_spawns
           (env_of exits0 Millisecond t0 WriteOk) 0 (only jobX2) jobX2 s');
    [reflexivity|discriminate|exact Hrun].
Defined.

(** ** The names of the result files *)

Lemma string_length_app a b :
  String.length (a +:+ b) = String.length a + String.length b.
Proof.
  induction a as [|c a IH]; [done|].
  change (S (String.length (a +:+ b)) = S (String.length a) + String.length b).
  by rewrite IH.
Qed.

Lemma string_app_inj a1 a2 b1 b2 :
  String.length a1 = String.length a2 →
  a1 +:+ b1 = a2 +:+ b2 → a1 = a2 ∧ b1 = b2.
Proof.
  revert a2. induction a1 as [|c a1 IH]; intros [|c2 a2]; try done.
  intros [= Hlen] Happ.
  change (String c (a1 +:+ b1) = String c2 (a2 +:+ b2)) in Happ.
  injection Happ as -> Happ. destruct (IH a2 Hlen Happ) as [-> ->]. done.
Qed.

Lemma string_app_inj_r a1 a2 b1 b2 :
  String.length b1 = String.length b2 →
  a1 +:+ b1 = a2 +:+ b2 → a1 = a2 ∧ b1 = b2.
Proof.
  intros Hlen Happ. apply string_app_inj; [|done].
  apply (f_equal String.length) in Happ.
  rewrite !string_length_app in Happ. lia.
Qed.

Lemma decimal_acc s acc :
  decimal s acc = (acc * 10 ^ N.of_nat (String.length s) + decimal s 0)%N.
Proof.
  revert acc. induction s as [|c s IH]; intros acc.
  - cbn. lia.
  - cbn [decimal String.length]. rewrite IH, (IH (10 * 0 + _)%N).
    rewrite Nat2N.inj_succ, N.pow_succ_r'. lia.
Qed.

Lemma pretty_N_char_value d :
  (d < 10)%N → (Ascii.N_of_ascii (pretty_N_char d) - 48)%N = d.
Proof.
  intros Hd.
  assert (d = 0 ∨ d = 1 ∨ d = 2 ∨ d = 3 ∨ d = 4 ∨ d = 5 ∨ d = 6 ∨ d = 7 ∨
          d = 8 ∨ d = 9)%N as H by lia.
  repeat (destruct H as [->|H]; [reflexivity|]). by subst.
Qed.

Lemma pretty_N_go_digits k x s :
  (x < 10 ^ N.of_nat k)%N →
  String.length (pretty_N_go x s) ≤ String.length s + k ∧
  decimal (pretty_N_go x s) 0
    = (x * 10 ^ N.of_nat (String.length s) + decimal s 0)%N.
Proof.
  revert x s. induction k as [|k IH]; intros x s Hx.
  - assert (x = 0%N) as -> by (cbn in Hx; lia).
    rewrite pretty_N_go_0. split; lia.
  - destruct (decide (x = 0%N)) as [->|Hne].
    { rewrite pretty_N_go_0. split; lia. }
    rewrite pretty_N_go_step by lia.
    rewrite Nat2N.inj_succ, N.pow_succ_r' in Hx.
    assert (x `div` 10 < 10 ^ N.of_nat k)%N as Hq
      by (apply N.Div0.div_lt_upper_bound; lia).
    destruct (IH (x `div` 10)%N (String (pretty_N_char (x `mod` 10)) s) Hq)
      as [Hlen Hdec].
    split; [cbn [String.length] in Hlen; lia|].
    rewrite Hdec. cbn [decimal String.length].
    rewrite (decimal_acc s), pretty_N_char_value by (apply N.mod_lt; lia).
    rewrite Nat2N.inj_succ, N.pow_succ_r'.
    pose proof (N.div_mod x 10 ltac:(lia)) as Hdm.
    set (A := (10 ^ N.of_nat (String.length s))%N).
    set (q := (x `div` 10)%N) in *. set (d := (x `mod` 10)%N) in *.
    rewrite Hdm. lia.
Qed.

Lemma zeros_length n :
  String.length (String.string_of_list_ascii (replicate n "0"%char)) = n.
Proof. induction n as [|n IH]; cbn; [done|by rewrite IH]. Qed.

Lemma decimal_zeros n p :
  decimal (String.string_of_list_ascii (replicate n "0"%char) +:+ p) 0
  = decimal p 0.
Proof. induction n as [|n IH]; [done|exact IH]. Qed.

(** Below [10^w], [appendInt _ w] prints exactly [w] digits, from which the
    number can be read back. *)
Lemma appendInt_digits w x :
  1 ≤ w → (x < 10 ^ N.of_nat w)%N →
  String.length (appendInt x w) = w ∧ decimal (appendInt x w) 0 = x.
Proof.
  intros Hw Hx. unfold appendInt. cbn zeta.
  rewrite string_length_app, zeros_length, decimal_zeros.
  unfold pretty, pretty_N. destruct (decide (x = 0%N)) as [->|Hne].
  - split; [cbn; lia|done].
  - destruct (pretty_N_go_digits w x "" Hx) as [Hlen Hdec].
    cbn [String.length] in Hlen, Hdec. split; [lia|].
    rewrite Hdec. cbn. lia.
Qed.

Lemma appendInt_2 x :
  (x < 100)%N →
  String.length (appendInt x 2) = 2 ∧ decimal (appendInt x 2) 0 = x.
Proof. intros Hx. apply appendInt_digits; [lia|exact Hx]. Qed.

Lemma appendInt_4 x :
  (x < 10000)%N →
  String.length (appendInt x 4) = 4 ∧ decimal (appendInt x 4) 0 = x.
Proof. intros Hx. apply appendInt_digits; [lia|exact Hx]. Qed.

Lemma Format_stamp_length t : civil t → String.length (Format_stamp t) = 15.
Proof.
  intros (Hy & Hmo & Hd & Hh & Hmi & Hs). unfold Format_stamp.
  rewrite !string_length_app.
  rewrite (proj1 (appendInt_4 _ Hy)), (proj1 (appendInt_2 _ Hmo)),
    (proj1 (appendInt_2 _ Hd)), (proj1 (appendInt_2 _ Hh)),
    (proj1 (appendInt_2 _ Hmi)), (proj1 (appendInt_2 _ Hs)).
  reflexivity.
Qed.

(** The stamp tells the second: readings with the same stamp agree on the
    six fields, and the other way round. *)
Lemma Format_stamp_inj t1 t2 :
  civil t1 → civil t2 →
  Format_stamp t1 = Format_stamp t2 ↔ same_second t1 t2.
Proof.
  intros (Hy1 & Hmo1 & Hd1 & Hh1 & Hmi1 & Hs1) (Hy2 & Hmo2 & Hd2 & Hh2 & Hmi2 & Hs2).
  split.
  - unfold Format_stamp. intros H.
    apply string_app_inj in H as [Ey H];
      [|by rewrite (proj1 (appendInt_4 _ Hy1)), (proj1 (appendInt_4 _ Hy2))].
    apply string_app_inj in H as [Emo H];
      [|by rewrite (proj1 (appendInt_2 _ Hmo1)), (proj1 (appendInt_2 _ Hmo2))].
    apply string_app_inj in H as [Ed H];
      [|by rewrite (proj1 (appendInt_2 _ Hd1)), (proj1 (appendInt_2 _ Hd2))].
    apply string_app_inj in H as [_ H]; [|done].
    apply string_app_inj in H as [Eh H];
      [|by rewrite (proj1 (appendInt_2 _ Hh1)), (proj1 (appendInt_2 _ Hh2))].
    apply string_app_inj in H as [Emi Es];
      [|by rewrite (proj1 (appendInt_2 _ Hmi1)), (proj1 (appendInt_2 _ Hmi2))].
    unfold same_second.
    rewrite <- (proj2 (appendInt_4 _ Hy1)), <- (proj2 (appendInt_4 _ Hy2)), Ey.
    rewrite <- (proj2 (appendInt_2 _ Hmo1)), <- (proj2 (appendInt_2 _ Hmo2)), Emo.
    rewrite <- (proj2 (appendInt_2 _ Hd1)), <- (proj2 (appendInt_2 _ Hd2)), Ed.
    rewrite <- (proj2 (appendInt_2 _ Hh1)), <- (proj2 (appendInt_2 _ Hh2)), Eh.
    rewrite <- (proj2 (appendInt_2 _ Hmi1)), <- (proj2 (appendInt_2 _ Hmi2)), Emi.
    rewrite <- (proj2 (appendInt_2 _ Hs1)), <- (proj2 (appendInt_2 _ Hs2)), Es.
    done.
  - intros (Ey & Emo & Ed & Eh & Emi & Es). unfold Format_stamp.
    by rewrite Ey, Emo, Ed, Eh, Emi, Es.
Qed.

Lemma string_app_assoc a b c : (a +:+ b) +:+ c = a +:+ b +:+ c.
Proof.
  induction a as [|x a IH]; [done|].
  change (String x ((a +:+ b) +:+ c) = String x (a +:+ b +:+ c)).
  by rewrite IH.
Qed.

Lemma string_app_nonempty a b : b ≠ "" → String.eqb (a +:+ b) "" = false.
Proof. intros Hb. by destruct a, b. Qed.

Lemma has_slash_app a b : has_slash (a +:+ b) = has_slash a || has_slash b.
Proof.
  induction a as [|c a IH]; [done|].
  change (String c a +:+ b) with (String c (a +:+ b)).
  cbn [has_slash]. by rewrite IH, orb_assoc.
Qed.

Lemma pretty_N_char_no_slash d : Ascii.eqb (pretty_N_char d) "/" = false.
Proof. unfold pretty_N_char. by repeat case_match. Qed.

Lemma pretty_N_go_no_slash x s :
  has_slash s = false → has_slash (pretty_N_go x s) = false.
Proof.
  revert s. induction (N.lt_wf_0 x) as [x _ IH]; intros s Hs.
  destruct (decide (x = 0)%N) as [->|Hx]; [by rewrite pretty_N_go_0|].
  rewrite pretty_N_go_step by lia. apply IH.
  - apply N.div_lt; lia.
  - cbn [has_slash]. by rewrite pretty_N_char_no_slash.
Qed.

Lemma appendInt_no_slash x w : has_slash (appendInt x w) = false.
Proof.
  unfold appendInt. cbn zeta. rewrite has_slash_app.
  apply orb_false_intro.
  - induction (w - _) as [|n IH]; [done|exact IH].
  - unfold pretty, pretty_N. destruct (decide _); [done|].
    by apply pretty_N_go_no_slash.
Qed.

Lemma Format_stamp_no_slash t : has_slash (Format_stamp t) = false.
Proof.
  unfold Format_stamp. by rewrite !has_slash_app, !appendInt_no_slash.
Qed.

(** The name of a result file is a file name proper when the job's id
    holds no separator. *)
Lemma result_name_plain id t :
  has_slash id = false →
  plain ("job_" +:+ id +:+ "_" +:+ Format_stamp t +:+ ".json").
Proof.
  intros Hid. split_and!;
    [intros H; apply (f_equal String.length) in H;
     rewrite string_length_app in H; cbn in H; lia..|].
  by rewrite !has_slash_app, Hid, Format_stamp_no_slash.
Qed.

Lemma split_slash_cons a : ∃ h t, split_slash a = h :: t.
Proof.
  destruct a as [|c a]; [by eexists _, _|]. cbn [split_slash].
  destruct (Ascii.eqb c "/"); [by eexists _, _|].
  destruct (split_slash a); by eexists _, _.
Qed.

Lemma split_slash_app a b :
  split_slash (a +:+ "/" +:+ b) = split_slash a ++ split_slash b.
Proof.
  induction a as [|c a IH]; [done|].
  change (String c a +:+ "/" +:+ b) with (String c (a +:+ "/" +:+ b)).
  cbn [split_slash]. rewrite IH.
  destruct (Ascii.eqb c "/"); [done|].
  by destruct (split_slash_cons a) as (h & t & ->).
Qed.

Lemma split_slash_plain name : has_slash name = false → split_slash name = [name].
Proof.
  induction name as [|c name IH]; [done|]. cbn [has_slash split_slash].
  intros [Hc Hn]%orb_false_elim. rewrite Hc, (IH Hn). done.
Qed.

Lemma clean_step_plain rooted st name :
  plain name → clean_step rooted st name = name :: st.
Proof.
  intros (H0 & H1 & H2 & _). unfold clean_step.
  destruct (String.eqb_spec name "") as [|_]; [done|].
  destruct (String.eqb_spec name ".") as [|_]; [done|].
  by destruct (String.eqb_spec name "..").
Qed.

Lemma join_slash_snoc elems name :
  join_slash (elems ++ [name]) =
    match elems with [] => "" | _ => join_slash elems +:+ "/" end +:+ name.
Proof.
  induction elems as [|e rest IH]; [done|].
  destruct rest as [|r rest].
  - cbn. by rewrite string_app_assoc.
  - change (join_slash ((e :: r :: rest) ++ [name]))
      with (e +:+ "/" +:+ join_slash ((r :: rest) ++ [name])).
    rewrite IH.
    change (join_slash (e :: r :: rest)) with (e +:+ "/" +:+ join_slash (r :: rest)).
    by rewrite !string_app_assoc.
Qed.

(** Under a given directory, the path of a file name proper is the cleaned
    directory with the name at its end. *)
Lemma Join_plain dir : ∃ pre, ∀ name, plain name → Join dir name = pre +:+ name.
Proof.
  destruct dir as [|c dir].
  - exists "". intros name Hn. pose proof Hn as (H0 & _ & _ & Hs).
    unfold Join. cbn [String.eqb negb].
    destruct (String.eqb_spec name "") as [|_]; [done|]. cbn [negb].
    unfold Clean. destruct (String.eqb_spec name "") as [|_]; [done|].
    assert (rooted name = false) as ->.
    { destruct name as [|x name]; [done|]. cbn in Hs |- *.
      by apply orb_false_elim in Hs as [-> _]. }
    rewrite (split_slash_plain _ Hs). cbn [fold_left].
    rewrite (clean_step_plain _ _ _ Hn). cbn [rev app join_slash].
    by destruct (String.eqb_spec name "").
  - set (d := String c dir).
    set (st := fold_left (clean_step (rooted d)) (split_slash d) []).
    set (jp := match rev st with [] => "" | _ => join_slash (rev st) +:+ "/" end).
    exists (if rooted d then "/" +:+ jp else jp).
    intros name Hn. pose proof Hn as (H0 & _ & _ & Hs).
    unfold Join. change (String.eqb d "") with false. cbn [negb].
    unfold Clean.
    change (String.eqb (d +:+ "/" +:+ name) "") with false. cbn match.
    change (rooted (d +:+ "/" +:+ name)) with (rooted d).
    rewrite split_slash_app, (split_slash_plain _ Hs), fold_left_app.
    cbn [fold_left]. fold st.
    rewrite (clean_step_plain _ _ _ Hn). cbn [rev].
    rewrite join_slash_snoc. fold jp.
    destruct (rooted d).
    + change ("/" +:+ jp +:+ name) with (String "/" (jp +:+ name)). done.
    + by rewrite (string_app_nonempty _ _ H0).
Qed.

Lemma Join_inj dir n1 n2 :
  plain n1 → plain n2 → Join dir n1 = Join dir n2 → n1 = n2.
Proof.
  intros P1 P2. destruct (Join_plain dir) as [pre Hpre].
  rewrite (Hpre _ P1), (Hpre _ P2). intros H.
  by apply string_app_inj in H as [_ H].
Qed.

Lemma resultFile_eq_inv cfg j1 j2 env1 env2 :
  has_slash (ID j1) = false → has_slash (ID j2) = false →
  civil (now_stamp env1) → civil (now_stamp env2) →
  resultFile cfg j1 env1 = resultFile cfg j2 env2 →
  ID j1 = ID j2 ∧ same_second (now_stamp env1) (now_stamp env2).
Proof.
  intros S1 S2 C1 C2 H.
  apply Join_inj in H; [|by apply result_name_plain..].
  apply string_app_inj in H as [_ H]; [|done].
  apply string_app_inj_r in H as [Hid H].
  - split; [done|].
    apply string_app_inj in H as [_ H]; [|done].
    apply string_app_inj_r in H as [H _]; [|done].
    by apply Format_stamp_inj.
  - rewrite !string_length_app, !Format_stamp_length by done. done.
Qed.

(** Ids that hold separators are another matter: the runs of two jobs with
    different ids can write one file. *)
Example resultFile_ids_with_separators :
  resultFile cfg0 (mkJob "a/../b" "" "true" [] "" Minute zeroTime "active")
             (env_of exits0 Millisecond t0 WriteOk)
  = resultFile cfg0 (mkJob "c/../b" "" "true" [] "" Minute zeroTime "active")
               (env_of exits0 Millisecond t0 WriteOk).
Proof. vm_compute. reflexivity. Qed.

(** Two runs of jobs whose ids hold no path separator write to the same
    file exactly when the jobs have the same id and the file-name clock is
    read in the same second (for clock readings up to the year 9999):
    different such jobs, and runs of one job ending in different seconds,
    never share a result file. *)
Theorem resultFile_inj cfg j1 j2 env1 env2 :
  has_slash (ID j1) = false → has_slash (ID j2) = false →
  civil (now_stamp env1) → civil (now_stamp env2) →
  resultFile cfg j1 env1 = resultFile cfg j2 env2 ↔
  ID j1 = ID j2 ∧ same_second (now_stamp env1) (now_stamp env2).
Proof.
  intros S1 S2 C1 C2. split.
  - by apply resultFile_eq_inv.
  - intros [Hid Hsec]. unfold resultFile.
    by rewrite Hid, (proj2 (Format_stamp_inj _ _ C1 C2) Hsec).
Qed.

Lemma resultFile_inj_witness :
  resultFile cfg0 jobA (env_of exits0 Millisecond t0 WriteOk)
    = resultFile cfg0 jobB (env_of exits0 Millisecond t1 WriteOk) ↔
  ID jobA = ID jobB ∧ same_second t0 t1.
Proof.
  apply (resultFile_inj cfg0 jobA jobB
           (env_of exits0 Millisecond t0 WriteOk)
           (env_of exits0 Millisecond t1 WriteOk));
    [reflexivity|reflexivity|repeat split; reflexivity..].
Defined.

(** ** What a run leaves in the log directory *)

Lemma executeJob_other_files env p s job s' f :
  heap s !! p = Some job →
  executeJob env p s = Some s' →
  f ≠ resultFile (config s) job env →
  files s' !! f = files s !! f.
Proof.
  intros Hjob Hrun Hne.
  destruct (executeJob_Some env p s job Hjob)
    as (s'' & Hrun' & _ & _ & _ & _ & _ & _ & _ & Hf).
  rewrite Hrun in Hrun'. injection Hrun' as <-.
  rewrite Hf. unfold WriteFile.
  destruct (write env); [by rewrite lookup_insert_ne|done|by rewrite lookup_insert_ne].
Qed.

(** Among the result files, a run touches its own and no other.  After a
    successful write that file holds the run's record, with the job's id as
    the encoder writes it and the status of the run; when the file cannot
    be opened nothing changes at all; and a write that fails half-way
    leaves a file no record can be read from, whatever the file held
    before. *)
Theorem run_touches_one_file env p s job s' :
  heap s !! p = Some job →
  executeJob env p s = Some s' →
  let file := resultFile (config s) job env in
  (∀ f, f ≠ file → files s' !! f = files s !! f) ∧
  match write env with
  | WriteOk => ∃ r, files s' !! file = Some (Json r) ∧
                    job_id r = json_string (ID job) ∧ status r = status_of
                      (CombinedOutput (Timeout job)
                         (host env (job_cmd (config s) (environ env) job))).1.2
  | OpenFailed => files s' = files s
  | WriteFailed n => read_result file s' = None
  end.
Proof.
  intros Hjob Hrun file.
  destruct (executeJob_Some env p s job Hjob)
    as (s'' & Hrun' & _ & _ & _ & _ & _ & _ & _ & Hf).
  rewrite Hrun in Hrun'. injection Hrun' as <-. fold file in Hf.
  split.
  - intros f Hne. by apply (executeJob_other_files env p s job).
  - unfold read_result. rewrite Hf. unfold WriteFile.
    destruct (write env).
    + eexists. split; [apply lookup_insert_eq|]. split; [reflexivity|].
      apply json_string_status_of.
    + done.
    + by rewrite lookup_insert_eq.
Qed.

Lemma run_touches_one_file_witness :
  ∃ s', executeJob (env_of exits0 Millisecond t0 (WriteFailed 10)) 0 (only jobB)
          = Some s' ∧
        (∀ f, f ≠ "/logs/job_B_20250309_070502.json" →
              files s' !! f = files (only jobB) !! f) ∧
        read_result "/logs/job_B_20250309_070502.json" s' = None.
Proof.
  destruct (executeJob_Some (env_of exits0 Millisecond t0 (WriteFailed 10)) 0
              (only jobB) jobB) as (s' & Hrun & _); [reflexivity|].
  exists s'. split; [exact Hrun|].
  apply (run_touches_one_file
           (env_of exits0 Millisecond t0 (WriteFailed 10)) 0 (only jobB) jobB s');
    [reflexivity|exact Hrun].
Defined.

(** For jobs whose ids hold no path separator, the record of a run stays
    readable through every later run, except a run of a job of the same id
    whose file-name clock reading falls into the same second. *)
Theorem record_survives_other_runs env1 env2 p1 p2 s s1 s2 j1 j2 r :
  has_slash (ID j1) = false → has_slash (ID j2) = false →
  heap s !! p1 = Some j1 →
  executeJob env1 p1 s = Some s1 →
  read_result (resultFile (config s) j1 env1) s1 = Some r →
  heap s1 !! p2 = Some j2 →
  executeJob env2 p2 s1 = Some s2 →
  civil (now_stamp env1) → civil (now_stamp env2) →
  ID j1 ≠ ID j2 ∨ ¬ same_second (now_stamp env1) (now_stamp env2) →
  read_result (resultFile (config s) j1 env1) s2 = Some r.
Proof.
  intros S1 S2 Hj1 Hrun1 Hr Hj2 Hrun2 C1 C2 Hdiff.
  destruct (executeJob_Some env1 p1 s j1 Hj1) as (s1' & Hrun1' & Hcfg & _).
  rewrite Hrun1 in Hrun1'. injection Hrun1' as <-.
  unfold read_result in *.
  rewrite (executeJob_other_files env2 p2 s1 j2 s2 _ Hj2 Hrun2); [done|].
  rewrite Hcfg. intros Heq. apply resultFile_eq_inv in Heq as [Hid Hsec]; [|done..].
  destruct Hdiff; auto.
Qed.

Lemma record_survives_witness :
  ∃ s1 s2 r,
    executeJob (env_of exits0 Millisecond t0 WriteOk) 0 (only jobB) = Some s1 ∧
    executeJob (env_of exits3 Millisecond t1 WriteOk) 0 s1 = Some s2 ∧
    status r = "completed" ∧
    read_result (resultFile (config (only jobB)) jobB
                            (env_of exits0 Millisecond t0 WriteOk)) s2 = Some r.
Proof.
  eexists _, _, _. split; [vm_compute; reflexivity|].
  split; [vm_compute; reflexivity|]. split; [|
  eapply (record_survives_other_runs
           (env_of exits0 Millisecond t0 WriteOk)
           (env_of exits3 Millisecond t1 WriteOk) 0 0 (only jobB) _ _ jobB
           (set_Status "completed" jobB));
    [reflexivity
    |reflexivity
    |reflexivity
    |vm_compute; reflexivity
    |vm_compute; reflexivity
    |reflexivity
    |vm_compute; reflexivity
    |repeat split; reflexivity
    |repeat split; reflexivity
    |right; intros (_ & _ & _ & _ & _ & Hs); discriminate Hs]].
  reflexivity.
Defined.

Lemma zeros_ascii n :
  is_ascii (String.string_of_list_ascii (replicate n "0"%char)) = true.
Proof. induction n as [|n IH]; [done|exact IH]. Qed.

Lemma appendInt_ascii x w : is_ascii (appendInt x w) = true.
Proof.
  unfold appendInt. cbn zeta.
  by rewrite is_ascii_app, zeros_ascii, pretty_N_ascii.
Qed.

Lemma Format_RFC3339_ascii t : is_ascii (Format_RFC3339 t) = true.
Proof.
  unfold Format_RFC3339, Format_zone.
  rewrite !is_ascii_app, !appendInt_ascii.
  destruct (zone_offset t =? 0)%Z; [done|]. cbn zeta.
  rewrite !is_ascii_app, !appendInt_ascii.
  by destruct (_ <? 0)%Z.
Qed.

(** A record written with success names its job, with the id and the name
    as the encoder writes them (as they are when they are ASCII), carries
    the elapsed time in whole milliseconds (rounded towards zero) and the
    first clock reading, is "completed" exactly when its error is null and
    "failed" otherwise, and shows the status the run left in the job. *)
Theorem record_is_consistent env p s job r :
  heap s !! p = Some job →
  write env = WriteOk →
  records env p s r →
  job_id r = json_string (ID job) ∧ job_name r = json_string (Name job) ∧
  (is_ascii (ID job) = true → job_id r = ID job) ∧
  (is_ascii (Name job) = true → job_name r = Name job) ∧
  executed_at r = Format_RFC3339 (now_executed env) ∧
  duration_ms r = (elapsed env ÷ 1000000)%Z ∧
  (status r = "completed" ∧ result_error r = None ∨
   status r = "failed" ∧ is_Some (result_error r)) ∧
  ∃ s', executeJob env p s = Some s' ∧ Status <$> heap s' !! p = Some (status r).
Proof.
  intros Hjob Hw (job' & s' & Hjob' & Hrun & Hread).
  rewrite Hjob in Hjob'. injection Hjob' as <-.
  pose proof (executeJob_Status env p s job s' Hjob Hrun) as Hst.
  destruct (executeJob_Some env p s job Hjob)
    as (s'' & Hrun' & _ & _ & _ & _ & _ & _ & _ & Hf).
  rewrite Hrun in Hrun'. injection Hrun' as <-.
  unfold read_result in Hread. rewrite Hf, Hw in Hread. cbn [WriteFile] in Hread.
  rewrite lookup_insert_eq in Hread. injection Hread as <-.
  cbn [MarshalIndent job_result job_id job_name executed_at duration_ms status
       result_error set_Status ID Name Status].
  split_and!.
  - reflexivity.
  - reflexivity.
  - apply json_string_ascii.
  - apply json_string_ascii.
  - apply json_string_ascii, Format_RFC3339_ascii.
  - reflexivity.
  - rewrite json_string_status_of.
    destruct (CombinedOutput _ _).1.2; [right|left]; split; by eauto.
  - exists s'. split; [done|]. by rewrite Hst, json_string_status_of.
Qed.

Lemma record_is_consistent_witness :
  ∃ r, records (env_of exits3 (2500 * Millisecond + 999)%Z t0 WriteOk) 0 (only jobB) r ∧
       job_id r = "B" ∧ duration_ms r = 2500%Z ∧
       (status r = "completed" ∧ result_error r = None ∨
        status r = "failed" ∧ is_Some (result_error r)).
Proof.
  pose proof (executeJob_records
                (env_of exits3 (2500 * Millisecond + 999)%Z t0 WriteOk) 0
                (only jobB) jobB eq_refl eq_refl) as Hrec.
  cbn zeta in Hrec.
  eexists. split; [exact Hrec|].
  destruct (record_is_consistent
              (env_of exits3 (2500 * Millisecond + 999)%Z t0 WriteOk) 0
              (only jobB) jobB _ eq_refl eq_refl Hrec)
    as (Hid & _ & _ & _ & _ & Hms & Hst & _).
  split; [exact Hid|]. split; [exact Hms|exact Hst].
Defined.

Lemma WriteFile_commute f1 f2 r1 r2 w1 w2 (fs : gmap string FileContent) :
  f1 ≠ f2 →
  WriteFile f2 r2 w2 (WriteFile f1 r1 w1 fs) = WriteFile f1 r1 w1 (WriteFile f2 r2 w2 fs).
Proof.
  intros Hne. unfold WriteFile.
  destruct w1, w2; try done; by apply insert_insert_ne.
Qed.

(** Runs of two different jobs that write different result files can
    happen in either order: when each run meets the same host behaviour,
    clock readings and write outcome whichever comes first, the jobs, the
    files, the job map and the triggers end up the same, and the log and
    the list of spawned processes hold the same entries. *)
Theorem runs_of_different_jobs_commute env1 env2 p1 p2 s j1 j2 sa sab sb sba :
  heap s !! p1 = Some j1 →
  heap s !! p2 = Some j2 →
  p1 ≠ p2 →
  resultFile (config s) j1 env1 ≠ resultFile (config s) j2 env2 →
  executeJob env1 p1 s = Some sa → executeJob env2 p2 sa = Some sab →
  executeJob env2 p2 s = Some sb → executeJob env1 p1 sb = Some sba →
  heap sab = heap sba ∧ files sab = files sba ∧ jobs sab = jobs sba ∧
  cron sab = cron sba ∧ config sab = config sba ∧
  logger sab ≡ₚ logger sba ∧ spawned sab ≡ₚ spawned sba.
Proof.
  intros H1 H2 Hne Hfile Ra Rab Rb Rba.
  destruct (executeJob_Some env1 p1 s j1 H1)
    as (x & Hx & Ac & Acr & Aj & _ & Ah & Al & As & Af).
  rewrite Ra in Hx. injection Hx as <-.
  destruct (executeJob_Some env2 p2 s j2 H2)
    as (x & Hx & Bc & Bcr & Bj & _ & Bh & Bl & Bs & Bf).
  rewrite Rb in Hx. injection Hx as <-.
  assert (heap sa !! p2 = Some j2) as H2a
    by (by rewrite Ah, list_lookup_alter_ne).
  assert (heap sb !! p1 = Some j1) as H1b
    by (rewrite Bh, list_lookup_alter_ne; done).
  destruct (executeJob_Some env2 p2 sa j2 H2a)
    as (x & Hx & ABc & ABcr & ABj & _ & ABh & ABl & ABs & ABf).
  rewrite Rab in Hx. injection Hx as <-.
  destruct (executeJob_Some env1 p1 sb j1 H1b)
    as (x & Hx & BAc & BAcr & BAj & _ & BAh & BAl & BAs & BAf).
  rewrite Rba in Hx. injection Hx as <-.
  rewrite Ac in ABh, ABl, ABs, ABf. rewrite Bc in BAh, BAl, BAs, BAf.
  split_and!.
  - rewrite ABh, BAh, Ah, Bh. by apply list_alter_alter_ne.
  - rewrite ABf, BAf, Af, Bf. by apply WriteFile_commute.
  - congruence.
  - congruence.
  - congruence.
  - rewrite ABl, BAl, Al, Bl, <- !app_assoc.
    apply Permutation_app_head, Permutation_app_comm.
  - rewrite ABs, BAs, As, Bs.
    destruct (CombinedOutput _ _).2, (CombinedOutput _ _).2;
      rewrite <- ?app_assoc; try done.
    apply Permutation_app_head, Permutation_app_comm.
Qed.

Lemma runs_commute_witness :
  ∃ sa sab sb sba,
    executeJob (env_of exits0 Millisecond t0 WriteOk) 0 two_jobs = Some sa ∧
    executeJob (env_of exits3 Millisecond t0 WriteOk) 1 sa = Some sab ∧
    executeJob (env_of exits3 Millisecond t0 WriteOk) 1 two_jobs = Some sb ∧
    executeJob (env_of exits0 Millisecond t0 WriteOk) 0 sb = Some sba ∧
    heap sab = heap sba ∧ files sab = files sba ∧ jobs sab = jobs sba ∧
    cron sab = cron sba ∧ config sab = config sba ∧
    logger sab ≡ₚ logger sba ∧ spawned sab ≡ₚ spawned sba.
Proof.
  eexists _, _, _, _.
  split; [vm_compute; reflexivity|]. split; [vm_compute; reflexivity|].
  split; [vm_compute; reflexivity|]. split; [vm_compute; reflexivity|].
  eapply (runs_of_different_jobs_commute
            (env_of exits0 Millisecond t0 WriteOk)
            (env_of exits3 Millisecond t0 WriteOk) 0 1 two_jobs jobA jobB).
  - reflexivity.
  - reflexivity.
  - discriminate.
  - intros H. vm_compute in H. discriminate H.
  - vm_compute. reflexivity.
  - vm_compute. reflexivity.
  - vm_compute. reflexivity.
  - vm_compute. reflexivity.
Defined.

(** ** Start-up *)

(** [Start] on a new runner binds exactly the four catalog ids, each to its
    catalog job, and leaves the engine running with one trigger for each
    catalog schedule the parser accepts; the count it logs is the number of
    jobs in the map, four, however many triggers were registered; no file,
    process or line on standard error results. *)
Theorem Start_newRunner parser cfg :
  ∃ s, Start (newRunner parser cfg) = Some (s, None) ∧
       config s = cfg ∧
       heap s = catalog ∧
       (∀ i j, catalog !! i = Some j → jobs s !! ID j = Some i) ∧
       size (jobs s) = 4 ∧
       logger s = [LogRunnerStart (RunnerID cfg); LogRunnerActive 4] ∧
       GoCron.running (cron s) = true ∧
       GoCron.Spec <$> GoCron.entries (cron s)
         = Schedule <$> List.filter (λ j, parser (Schedule j)) catalog ∧
       files s = ∅ ∧ spawned s = [] ∧ stderr s = [].
Proof.
  destruct (Start_Some (newRunner parser cfg)) as [s HS].
  exists s. split; [exact HS|].
  apply Start_steps in HS as (s1 & s2 & s3 & s4 & H1 & H2 & H3 & H4 & _ & ->).
  rewrite addNew_eq in H1. injection H1 as <-.
  rewrite addNew_eq in H2. injection H2 as <-.
  rewrite addNew_eq in H3. injection H3 as <-.
  rewrite addNew_eq in H4. injection H4 as <-.
  cbn -[registered size].
  split; [reflexivity|]. split; [reflexivity|]. split.
  { intros i j Hi.
    destruct i as [|[|[|[|i]]]]; cbn in Hi; simplify_eq; cbn.
    - by rewrite !lookup_insert_ne, lookup_insert_eq by done.
    - by rewrite !lookup_insert_ne, lookup_insert_eq by done.
    - by rewrite !lookup_insert_ne, lookup_insert_eq by done.
    - by rewrite lookup_insert_eq. }
  assert (∀ m : gmap string nat, m = <["sync-devtools-hub":=3]>
                (<["cleanup-old-artifacts":=2]>
                 (<["governance-report-daily":=1]>
                  (<["ecosystem-mining-weekly":=0]> ∅))) → size m = 4) as Hsize.
  { intros m ->.
    rewrite map_size_insert_None
      by (by rewrite !lookup_insert_ne, lookup_empty by done).
    rewrite map_size_insert_None
      by (by rewrite !lookup_insert_ne, lookup_empty by done).
    rewrite map_size_insert_None
      by (by rewrite !lookup_insert_ne, lookup_empty by done).
    rewrite map_size_insert_None by apply lookup_empty.
    by rewrite map_size_empty. }
  split; [by apply Hsize|]. split; [by rewrite (Hsize _ eq_refl)|]. split.
  { apply GoCron_Start_same. }
  split; [|done].
  rewrite (proj1 (GoCron_Start_same _)), !registered_entries, !fmap_app.
  rewrite !trigger_of_Spec by done. rewrite !registered_accepts. cbn.
  destruct (parser "0 2 * * 1"), (parser "0 8 * * *"), (parser "0 1 1 * *"),
    (parser "*/30 * * * *"); reflexivity.
Qed.

(** [main] ends in one of three ways: with a fatal line when the
    configuration cannot be read or decoded; with a fatal line when the log
    file cannot be opened; and otherwise serving, in the state [Start]
    leaves a new runner in.  Nothing about the jobs or their schedules can
    make it give up. *)
Theorem main_outcome b Args :
  (∃ e, (loadConfig b (configPath Args)).2 = Some e ∧
        main b Args =
          Some (Fatal ("Erreur création runner: erreur chargement config: "
                       +:+ Error e))) ∨
  (∃ cfg e, loadConfig b (configPath Args) = (Some cfg, None) ∧
            OpenFile b (Join (LogPath cfg) "runner.log") = Some e ∧
            main b Args =
              Some (Fatal ("Erreur création runner: erreur création log: "
                           +:+ Error e))) ∨
  (∃ cfg s, loadConfig b (configPath Args) = (Some cfg, None) ∧
            OpenFile b (Join (LogPath cfg) "runner.log") = None ∧
            main b Args = Some (Serving s) ∧
            Start (newRunner (standardParser b) cfg) = Some (s, None)).
Proof.
  unfold main, NewLocalRunner. fold (configPath Args).
  destruct (loadConfig b (configPath Args)) as [ocfg [e|]] eqn:Hload.
  - left. exists e. split; [done|]. by destruct ocfg.
  - right. unfold loadConfig in Hload.
    destruct (ReadFile b (configPath Args)) as [data|e]; [|done].
    destruct (Unmarshal b data) as [cfg oe]. injection Hload as <- ->.
    destruct (OpenFile b _) as [e|] eqn:Hopen.
    + left. exists cfg, e. split_and!; [done..|reflexivity].
    + right. destruct (Start_Some (newRunner (standardParser b) cfg)) as [s HS].
      exists cfg, s. rewrite HS. by cbn.
Qed.
